(** * art-coach-ai: the streaming session of [App] and the frame sources

    A shallow embedding of the session logic of the [App] component
    (startSession, stopSession, the onopen / onmessage / onerror / onclose
    callbacks, the frame-sampling interval and addTranscription) and of
    the [getFrame] handles of [CameraTracker] and [DrawingCanvas].

    Conventions.
    - React state ([useState]) and refs ([useRef]) of [App] are the fields
      of one record, [World]; every handler is a function [World -> World].
    - The browser is represented by the calls the program makes to it: the
      field [trace] lists them, oldest first.  Values the browser hands
      back (a media stream, a session handle, a timer id, clock readings)
      are arguments of the handler that receives them.
    - Times on the audio clock are JavaScript numbers in seconds; they are
      modelled as exact rationals ([Q]), without the rounding of doubles.
    - A handler runs to completion before the next one starts: the one
      [await] inside [onmessage] waits for the application's own decoder,
      which is taken to return a buffer for every payload.
    - [await] splits [startSession] into the pieces that run between two
      suspension points. *)

From Stdlib Require Import Ascii String QArith Qminmax Lia.
From stdpp Require Import base list strings.

Local Open Scope string_scope.
Local Open Scope list_scope.

(** ** Identities of browser objects *)

Definition Handle := positive.   (* the session object of [ai.live.connect] *)
Definition TimerId := positive.  (* [window.setInterval] returns an id > 0 *)
Definition Node := positive.     (* an [AudioBufferSourceNode] *)
Definition Stream := positive.   (* a [MediaStream] *)

(** ** Data *)

Inductive TrackingMode := digital | physical.

Inductive Origin := user | ai.

Record TranscriptionItem := {
  text : string;
  type : Origin;
  timestamp : Z
}.

(** An [AudioBuffer] of the Web Audio API: [duration] is
    [length / sampleRate], hence never negative. *)
Record AudioBuffer := {
  frames : N;
  sampleRate : positive
}.

Definition duration (b : AudioBuffer) : Q := Z.of_N (frames b) # sampleRate b.

(** What [getFrame] and the optional chaining around it can evaluate to. *)
Inductive JsFrame :=
| JsNull
| JsUndefined
| JsString (s : string).

(** JavaScript truthiness, as used by [if (frame)] and [if (audioData)]. *)
Definition truthy_string (s : string) : bool :=
  negb (bool_decide (s = "")).

Definition truthy (f : JsFrame) : bool :=
  match f with
  | JsString s => truthy_string s
  | JsNull | JsUndefined => false
  end.

(** ** DOM elements behind the frame sources *)

Record Canvas := {
  width : N;
  height : N;
  context2d : bool  (* whether [getContext('2d')] yields a context *)
}.

Record Video := {
  srcObject : option Stream;
  readyState : N;   (* 0 HAVE_NOTHING, 1 HAVE_METADATA, 2 HAVE_CURRENT_DATA, ... *)
  videoWidth : N;
  videoHeight : N
}.

(** The refs of the [CameraTracker] component: [videoRef] and [canvasRef]. *)
Record CameraTrackerRef := {
  videoRef : option Video;
  ct_canvasRef : option Canvas
}.

(** The ref of the [DrawingCanvas] component: [canvasRef]. *)
Record DrawingCanvasRef := {
  dc_canvasRef : option Canvas
}.

(** ** Calls to the browser and to the remote service *)

Inductive Media :=
| Pcm (data : string)
| Jpeg (data : string).

Inductive Call :=
| NewAudioContext (rate : positive)
| GetUserMedia (r : option Stream)   (* listed when it settles, with its outcome *)
| LiveConnect (h : Handle)
| SessionClose (h : Handle)
| SendRealtimeInput (h : Handle) (m : Media)
| MicPump (s : Stream)            (* createMediaStreamSource + connect *)
| SetInterval (t : TimerId)
| ClearInterval (t : TimerId)
| SourceStart (n : Node) (when : Q) (b : AudioBuffer)
| SourceStop (n : Node)
| TrackStop (s : Stream)
| ConsoleError (msg : string).

Global Instance Q_eq_dec : EqDecision Q.
Proof. solve_decision. Defined.
Global Instance AudioBuffer_eq_dec : EqDecision AudioBuffer.
Proof. solve_decision. Defined.
Global Instance Media_eq_dec : EqDecision Media.
Proof. solve_decision. Defined.
Global Instance Call_eq_dec : EqDecision Call.
Proof. solve_decision. Defined.

(** ** The state of [App] *)

Record World := {
  (* useState *)
  isActive : bool;
  isConnecting : bool;
  trackingMode : TrackingMode;
  transcriptions : list TranscriptionItem;
  (* useRef *)
  canvasRef : option DrawingCanvasRef;
  cameraRef : option CameraTrackerRef;
  sessionRef : option Handle;
  audioContextRef : bool;          (* the pair of contexts exists *)
  sourcesRef : list Node;          (* a JS Set: insertion order, no repeats *)
  nextStartTimeRef : Q;
  frameIntervalRef : option TimerId;
  (* the browser *)
  nextNode : Node;                 (* identity of the next node created *)
  trace : list Call
}.

(** The component as first rendered: [useState(false)], [useRef(null)],
    [new Set()], [useRef(0)]; the digital studio is mounted. *)
Definition initial : World := {|
  isActive := false;
  isConnecting := false;
  trackingMode := digital;
  transcriptions := [];
  canvasRef := Some {| dc_canvasRef := Some {| width := 1600; height := 1200; context2d := true |} |};
  cameraRef := None;
  sessionRef := None;
  audioContextRef := false;
  sourcesRef := [];
  nextStartTimeRef := 0;
  frameIntervalRef := None;
  nextNode := 1%positive;
  trace := []
|}.

Definition set_isActive (v : bool) (w : World) : World :=
  {| isActive := v; isConnecting := isConnecting w; trackingMode := trackingMode w;
     transcriptions := transcriptions w; canvasRef := canvasRef w; cameraRef := cameraRef w;
     sessionRef := sessionRef w; audioContextRef := audioContextRef w;
     sourcesRef := sourcesRef w; nextStartTimeRef := nextStartTimeRef w;
     frameIntervalRef := frameIntervalRef w; nextNode := nextNode w; trace := trace w |}.

Definition set_isConnecting (v : bool) (w : World) : World :=
  {| isActive := isActive w; isConnecting := v; trackingMode := trackingMode w;
     transcriptions := transcriptions w; canvasRef := canvasRef w; cameraRef := cameraRef w;
     sessionRef := sessionRef w; audioContextRef := audioContextRef w;
     sourcesRef := sourcesRef w; nextStartTimeRef := nextStartTimeRef w;
     frameIntervalRef := frameIntervalRef w; nextNode := nextNode w; trace := trace w |}.

Definition set_trackingMode (v : TrackingMode) (w : World) : World :=
  {| isActive := isActive w; isConnecting := isConnecting w; trackingMode := v;
     transcriptions := transcriptions w; canvasRef := canvasRef w; cameraRef := cameraRef w;
     sessionRef := sessionRef w; audioContextRef := audioContextRef w;
     sourcesRef := sourcesRef w; nextStartTimeRef := nextStartTimeRef w;
     frameIntervalRef := frameIntervalRef w; nextNode := nextNode w; trace := trace w |}.

Definition set_transcriptions (v : list TranscriptionItem) (w : World) : World :=
  {| isActive := isActive w; isConnecting := isConnecting w; trackingMode := trackingMode w;
     transcriptions := v; canvasRef := canvasRef w; cameraRef := cameraRef w;
     sessionRef := sessionRef w; audioContextRef := audioContextRef w;
     sourcesRef := sourcesRef w; nextStartTimeRef := nextStartTimeRef w;
     frameIntervalRef := frameIntervalRef w; nextNode := nextNode w; trace := trace w |}.

Definition set_cameraRef (v : option CameraTrackerRef) (w : World) : World :=
  {| isActive := isActive w; isConnecting := isConnecting w; trackingMode := trackingMode w;
     transcriptions := transcriptions w; canvasRef := canvasRef w; cameraRef := v;
     sessionRef := sessionRef w; audioContextRef := audioContextRef w;
     sourcesRef := sourcesRef w; nextStartTimeRef := nextStartTimeRef w;
     frameIntervalRef := frameIntervalRef w; nextNode := nextNode w; trace := trace w |}.

Definition set_sessionRef (v : option Handle) (w : World) : World :=
  {| isActive := isActive w; isConnecting := isConnecting w; trackingMode := trackingMode w;
     transcriptions := transcriptions w; canvasRef := canvasRef w; cameraRef := cameraRef w;
     sessionRef := v; audioContextRef := audioContextRef w;
     sourcesRef := sourcesRef w; nextStartTimeRef := nextStartTimeRef w;
     frameIntervalRef := frameIntervalRef w; nextNode := nextNode w; trace := trace w |}.

Definition set_audioContextRef (v : bool) (w : World) : World :=
  {| isActive := isActive w; isConnecting := isConnecting w; trackingMode := trackingMode w;
     transcriptions := transcriptions w; canvasRef := canvasRef w; cameraRef := cameraRef w;
     sessionRef := sessionRef w; audioContextRef := v;
     sourcesRef := sourcesRef w; nextStartTimeRef := nextStartTimeRef w;
     frameIntervalRef := frameIntervalRef w; nextNode := nextNode w; trace := trace w |}.

Definition set_sourcesRef (v : list Node) (w : World) : World :=
  {| isActive := isActive w; isConnecting := isConnecting w; trackingMode := trackingMode w;
     transcriptions := transcriptions w; canvasRef := canvasRef w; cameraRef := cameraRef w;
     sessionRef := sessionRef w; audioContextRef := audioContextRef w;
     sourcesRef := v; nextStartTimeRef := nextStartTimeRef w;
     frameIntervalRef := frameIntervalRef w; nextNode := nextNode w; trace := trace w |}.

Definition set_nextStartTimeRef (v : Q) (w : World) : World :=
  {| isActive := isActive w; isConnecting := isConnecting w; trackingMode := trackingMode w;
     transcriptions := transcriptions w; canvasRef := canvasRef w; cameraRef := cameraRef w;
     sessionRef := sessionRef w; audioContextRef := audioContextRef w;
     sourcesRef := sourcesRef w; nextStartTimeRef := v;
     frameIntervalRef := frameIntervalRef w; nextNode := nextNode w; trace := trace w |}.

Definition set_frameIntervalRef (v : option TimerId) (w : World) : World :=
  {| isActive := isActive w; isConnecting := isConnecting w; trackingMode := trackingMode w;
     transcriptions := transcriptions w; canvasRef := canvasRef w; cameraRef := cameraRef w;
     sessionRef := sessionRef w; audioContextRef := audioContextRef w;
     sourcesRef := sourcesRef w; nextStartTimeRef := nextStartTimeRef w;
     frameIntervalRef := v; nextNode := nextNode w; trace := trace w |}.

Definition set_nextNode (v : Node) (w : World) : World :=
  {| isActive := isActive w; isConnecting := isConnecting w; trackingMode := trackingMode w;
     transcriptions := transcriptions w; canvasRef := canvasRef w; cameraRef := cameraRef w;
     sessionRef := sessionRef w; audioContextRef := audioContextRef w;
     sourcesRef := sourcesRef w; nextStartTimeRef := nextStartTimeRef w;
     frameIntervalRef := frameIntervalRef w; nextNode := v; trace := trace w |}.

Definition set_trace (v : list Call) (w : World) : World :=
  {| isActive := isActive w; isConnecting := isConnecting w; trackingMode := trackingMode w;
     transcriptions := transcriptions w; canvasRef := canvasRef w; cameraRef := cameraRef w;
     sessionRef := sessionRef w; audioContextRef := audioContextRef w;
     sourcesRef := sourcesRef w; nextStartTimeRef := nextStartTimeRef w;
     frameIntervalRef := frameIntervalRef w; nextNode := nextNode w; trace := v |}.

(** Issue browser calls: they are appended to the trace. *)
Definition emits (cs : list Call) (w : World) : World :=
  set_trace (trace w ++ cs) w.

Definition emit (c : Call) (w : World) : World := emits [c] w.

(** The calls made between two worlds of one run. *)
Definition since (w w' : World) : list Call :=
  drop (length (trace w)) (trace w').

(** ** Frame sources *)

(** [s.split(',')]. *)
Fixpoint split_comma (s : string) : list string :=
  match s with
  | EmptyString => [EmptyString]
  | String c r =>
      if Ascii.eqb c ","%char then EmptyString :: split_comma r
      else match split_comma r with
           | h :: t => String c h :: t
           | [] => [String c EmptyString]
           end
  end.

(** [url.split(',')[1]]: indexing past the end yields [undefined]. *)
Definition payload (url : string) : JsFrame :=
  match split_comma url !! 1%nat with
  | Some p => JsString p
  | None => JsUndefined
  end.

(** A JPEG encoder that follows the HTML Standard where it is precise: a
    bitmap with no pixels encodes to the string [data:,].  The payload of
    a bitmap with pixels is a fixed stand-in. *)
Definition html_toDataURL (c : Canvas) (mime : string) (quality : Q) : string :=
  if bool_decide (width c = 0%N ∨ height c = 0%N) then "data:,"
  else "data:image/jpeg;base64,/9j/4AAQSkZJRg==".

Module CameraTracker.
Section Encoder.
(** [canvas.toDataURL(type, quality)], provided by the browser. *)
Variable toDataURL : Canvas → string → Q → string.

(** [getFrame] resizes the hidden canvas to the video, so it returns the
    component's refs along with the frame.  [drawImage] changes pixels
    only, which [Canvas] does not record. *)
Definition getFrame (r : CameraTrackerRef) : JsFrame * CameraTrackerRef :=
  match videoRef r, ct_canvasRef r with
  | Some video, Some canvas =>
      let canvas :=
        if bool_decide (width canvas ≠ videoWidth video)
        then {| width := videoWidth video; height := videoHeight video;
                context2d := context2d canvas |}
        else canvas in
      let r' := {| videoRef := Some video; ct_canvasRef := Some canvas |} in
      if context2d canvas
      then (payload (toDataURL canvas "image/jpeg" (1 # 2)), r')
      else (JsNull, r')
  | _, _ => (JsNull, r)
  end.
End Encoder.

(** The effect cleanup run on unmount: stops the tracks of the camera
    stream attached to the video element. *)
Definition cleanup (r : CameraTrackerRef) : list Call :=
  match videoRef r with
  | Some video =>
      match srcObject video with
      | Some s => [TrackStop s]
      | None => []
      end
  | None => []
  end.
End CameraTracker.

Module DrawingCanvas.
Section Encoder.
Variable toDataURL : Canvas → string → Q → string.

Definition getFrame (r : DrawingCanvasRef) : JsFrame :=
  match dc_canvasRef r with
  | None => JsNull
  | Some canvas => payload (toDataURL canvas "image/jpeg" (6 # 10))
  end.
End Encoder.
End DrawingCanvas.

(** ** Transcript *)

(** [l.slice(-n)]: the last [n] elements, all of [l] when it is shorter. *)
Definition slice_last {A} (n : nat) (l : list A) : list A :=
  drop (length l - n) l.

(** [addTranscription]; [now] is the reading of [Date.now()]. *)
Definition addTranscription (now : Z) (t : string) (o : Origin) (w : World) : World :=
  set_transcriptions
    (slice_last 15 (transcriptions w ++ [{| text := t; type := o; timestamp := now |}]))
    w.

(** ** Teardown *)

Definition stopSession (w : World) : World :=
  let w := match sessionRef w with
           | Some h => set_sessionRef None (emit (SessionClose h) w)
           | None => w
           end in
  let w := match frameIntervalRef w with
           | Some t => set_frameIntervalRef None (emit (ClearInterval t) w)
           | None => w
           end in
  let w := emits (SourceStop <$> sourcesRef w) w in
  let w := set_sourcesRef [] w in
  set_isActive false w.

(** ** Messages of the remote service *)

Record Part := {
  inlineData : option string   (* [inlineData?.data] *)
}.

Record ServerContent := {
  inputTranscription : option string;
  outputTranscription : option string;
  modelTurn : option (list Part);
  interrupted : bool
}.

Record Message := {
  serverContent : option ServerContent
}.

(** [msg.serverContent?.modelTurn?.parts[0]?.inlineData?.data] *)
Definition audioData (msg : Message) : option string :=
  sc ← serverContent msg;
  parts ← modelTurn sc;
  p ← head parts;
  inlineData p.

(** The two clocks a message handler reads. *)
Record Clock := {
  dateNow : Z;       (* [Date.now()] *)
  currentTime : Q    (* [outputCtx.currentTime] *)
}.

(** [Set.prototype.add] and [Set.prototype.delete]. *)
Definition set_add (n : Node) (s : list Node) : list Node :=
  if bool_decide (n ∈ s) then s else s ++ [n].

Definition set_delete (n : Node) (s : list Node) : list Node :=
  filter (λ m, m ≠ n) s.

(** The audio block of [onmessage]: what the playback scheduler does
    with one decoded buffer. *)
Definition enqueue (now : Q) (buffer : AudioBuffer) (w : World) : World :=
  let w := set_nextStartTimeRef (Qmax (nextStartTimeRef w) now) w in
  let source := nextNode w in
  let w := set_nextNode (Pos.succ source) w in
  let w := emit (SourceStart source (nextStartTimeRef w) buffer) w in
  let w := set_nextStartTimeRef (nextStartTimeRef w + duration buffer) w in
  set_sourcesRef (set_add source (sourcesRef w)) w.

(** The listener each source registers for its [ended] event. *)
Definition onended (source : Node) (w : World) : World :=
  set_sourcesRef (set_delete source (sourcesRef w)) w.

(** The interruption block of [onmessage]. *)
Definition interruptAll (w : World) : World :=
  let w := emits (SourceStop <$> sourcesRef w) w in
  let w := set_sourcesRef [] w in
  set_nextStartTimeRef 0 w.

Section Session.
(** [decodeAudioData(decode(data), outputCtx, 24000, 1)] of
    services/audioUtils, which is not part of the sources at hand. *)
Variable decodeAudioData : string → AudioBuffer.
Variable toDataURL : Canvas → string → Q → string.

Definition onmessage (c : Clock) (msg : Message) (w : World) : World :=
  let w := match serverContent msg ≫= inputTranscription with
           | Some t => addTranscription (dateNow c) t user w
           | None => w
           end in
  let w := match serverContent msg ≫= outputTranscription with
           | Some t => addTranscription (dateNow c) t ai w
           | None => w
           end in
  let w := match audioData msg with
           | Some data =>
               if truthy_string data
               then enqueue (currentTime c) (decodeAudioData data) w
               else w
           | None => w
           end in
  match serverContent msg with
  | Some sc => if interrupted sc then interruptAll w else w
  | None => w
  end.

(** [onmessage] up to, and without, its interruption block. *)
Definition deliver (c : Clock) (msg : Message) (w : World) : World :=
  let w := match serverContent msg ≫= inputTranscription with
           | Some t => addTranscription (dateNow c) t user w
           | None => w
           end in
  let w := match serverContent msg ≫= outputTranscription with
           | Some t => addTranscription (dateNow c) t ai w
           | None => w
           end in
  match audioData msg with
  | Some data =>
      if truthy_string data
      then enqueue (currentTime c) (decodeAudioData data) w
      else w
  | None => w
  end.

(** The frame the interval callback obtains.  [mode] is the tracking
    mode its closure captured when the session was started. *)
Definition poll (mode : TrackingMode) (w : World) : JsFrame * World :=
  match mode with
  | digital =>
      (match canvasRef w with
       | Some r => DrawingCanvas.getFrame toDataURL r
       | None => JsUndefined
       end, w)
  | physical =>
      match cameraRef w with
      | Some r =>
          let '(f, r') := CameraTracker.getFrame toDataURL r in
          (f, set_cameraRef (Some r') w)
      | None => (JsUndefined, w)
      end
  end.

(** The callback of the frame-sampling interval. *)
Definition tick (mode : TrackingMode) (w : World) : World :=
  let '(frame, w) := poll mode w in
  match frame with
  | JsString data =>
      if truthy_string data
      then match sessionRef w with
           | Some h => emit (SendRealtimeInput h (Jpeg data)) w
           | None => w
           end
      else w
  | JsNull | JsUndefined => w
  end.
End Session.

(** [scriptProcessor.onaudioprocess]; [pcm] is the encoded block. *)
Definition onaudioprocess (pcm : string) (w : World) : World :=
  match sessionRef w with
  | Some h => emit (SendRealtimeInput h (Pcm pcm)) w
  | None => w
  end.

(** ** Starting a session *)

(** Up to [await getUserMedia]. *)
Definition startSession_begin (w : World) : World :=
  let w := set_isConnecting true w in
  let w := if audioContextRef w then w
           else set_audioContextRef true
                  (emits [NewAudioContext 16000; NewAudioContext 24000] w) in
  w.

(** The [catch] block. *)
Definition startSession_catch (w : World) : World :=
  set_isConnecting false (emit (ConsoleError "Failed to start session:") w).

(** From the outcome of [getUserMedia] to [await sessionPromise]:
    [h] names the channel that [ai.live.connect] opens. *)
Definition startSession_media (r : option Stream) (h : Handle) (w : World) : World :=
  let w := emit (GetUserMedia r) w in
  match r with
  | Some _ => emit (LiveConnect h) w
  | None => startSession_catch w
  end.

(** The [onopen] callback; [stream] is the microphone stream its closure
    holds, [t] the id [setInterval] returns. *)
Definition onopen (stream : Stream) (t : TimerId) (w : World) : World :=
  let w := set_isConnecting false w in
  let w := set_isActive true w in
  let w := emit (MicPump stream) w in
  let w := emit (SetInterval t) w in
  set_frameIntervalRef (Some t) w.

(** After [await sessionPromise]. *)
Definition startSession_resolved (r : option Handle) (w : World) : World :=
  match r with
  | Some h => set_sessionRef (Some h) w
  | None => startSession_catch w
  end.

Definition onerror (w : World) : World :=
  stopSession (emit (ConsoleError "Session error:") w).

Definition onclose (w : World) : World := stopSession w.

(** How [ai.live.connect] ends: it rejects, or the channel opens
    ([onopen] runs, the timer gets id [t]) and the promise resolves. *)
Inductive ConnectOutcome :=
| Rejected
| Opened (t : TimerId).

(** A whole run of [startSession] with no other handler in between. *)
Definition startSession (media : option Stream) (h : Handle) (conn : ConnectOutcome)
    (w : World) : World :=
  let w := startSession_begin w in
  match media with
  | None => startSession_media None h w
  | Some s =>
      let w := startSession_media (Some s) h w in
      match conn with
      | Rejected => startSession_resolved None w
      | Opened t => startSession_resolved (Some h) (onopen s t w)
      end
  end.

(** ** What the interface lets the user do *)

Inductive Phase := Idle | Connecting | Active.

(** The label of the session button: spinner while connecting, else
    "Stop Session" when active, else "Start Coaching". *)
Definition phase (w : World) : Phase :=
  if isConnecting w then Connecting
  else if isActive w then Active
  else Idle.

(** The session button: [disabled={isConnecting}],
    [onClick={isActive ? stopSession : startSession}].  A click runs
    [startSession] up to its first [await]. *)
Definition click_session (w : World) : World :=
  if isConnecting w then w
  else if isActive w then stopSession w
  else startSession_begin w.

(** The mode buttons: [if (isActive) stopSession(); setTrackingMode(m)]. *)
Definition click_mode (m : TrackingMode) (w : World) : World :=
  set_trackingMode m (if isActive w then stopSession w else w).

(** ** Observations on a run *)

(** The playback schedule a trace holds: start time and duration of every
    [source.start(t)], in call order. *)
Definition schedule (tr : list Call) : list (Q * Q) :=
  omap (λ c, match c with
             | SourceStart _ t b => Some (t, duration b)
             | _ => None
             end) tr.

(** Consecutive entries abut: each starts where the one before ends,
    and not earlier than it started. *)
Fixpoint back_to_back (l : list (Q * Q)) : Prop :=
  match l with
  | (s, d) :: (((s', _) :: _) as tl) =>
      s' = (s + d)%Q ∧ (s <= s')%Q ∧ back_to_back tl
  | _ => True
  end.

(** The message carries the interruption flag. *)
Definition flagged (msg : Message) : bool :=
  match serverContent msg with
  | Some sc => interrupted sc
  | None => false
  end.

(** A microphone stream is held: it was granted and its tracks were
    never stopped. *)
Definition mic_held (s : Stream) (tr : list Call) : bool :=
  bool_decide (GetUserMedia (Some s) ∈ tr) && negb (bool_decide (TrackStop s ∈ tr)).

(** The calls by which a session is torn down. *)
Definition is_teardown (c : Call) : bool :=
  match c with
  | SessionClose _ | ClearInterval _ | SourceStop _ | TrackStop _ => true
  | _ => false
  end.

Definition item (e : Z * string * Origin) : TranscriptionItem :=
  {| text := e.1.2; type := e.2; timestamp := e.1.1 |}.

(** A series of [addTranscription] calls. *)
Definition addTranscriptions (es : list (Z * string * Origin)) (w : World) : World :=
  foldl (λ w e, addTranscription e.1.1 e.1.2 e.2 w) w es.

Section Runs.
Variable decodeAudioData : string → AudioBuffer.

(** The buffer [onmessage] enqueues for a message, if any. *)
Definition audio_of (msg : Message) : option AudioBuffer :=
  match audioData msg with
  | Some data => if truthy_string data then Some (decodeAudioData data) else None
  | None => None
  end.

(** A series of messages, each handled at its own clock readings. *)
Definition run (evs : list (Clock * Message)) (w : World) : World :=
  foldl (λ w e, onmessage decodeAudioData e.1 e.2 w) w evs.

(** Audio arrives faster than real time: whenever a message brings a
    buffer, the output clock has not passed the cursor. *)
Fixpoint ahead (evs : list (Clock * Message)) (w : World) : bool :=
  match evs with
  | [] => true
  | (c, m) :: evs' =>
      (match audio_of m with
       | Some _ => Qle_bool (currentTime c) (nextStartTimeRef w)
       | None => true
       end)
      && ahead evs' (onmessage decodeAudioData c m w)
  end.
End Runs.

(** A schedule that starts at [t] and abuts throughout. *)
Fixpoint chained_from (t : Q) (l : list (Q * Q)) : Prop :=
  match l with
  | [] => True
  | (s, d) :: tl => s = t ∧ (0 <= d)%Q ∧ chained_from (s + d) tl
  end.

(** [getFrame] of the camera cannot reach the encoder: an element is
    not mounted or no 2D context is to be had. *)
Definition unavailable (r : CameraTrackerRef) : bool :=
  match videoRef r, ct_canvasRef r with
  | Some _, Some c => negb (context2d c)
  | _, _ => true
  end.

(** The camera has no current frame: it is unavailable, or its video
    element holds no data for the current playback position yet (its
    [readyState] is below HAVE_CURRENT_DATA).  [getFrame] never reads
    [readyState]; at HAVE_NOTHING the element reports a [videoWidth] of 0,
    from HAVE_METADATA on it reports the dimensions of the video. *)
Definition no_current_frame (r : CameraTrackerRef) : bool :=
  unavailable r
  || match videoRef r with
     | Some v => (readyState v <? 2)%N
     | None => true
     end.

(** The bitmap has pixels: neither dimension is zero. *)
Definition has_pixels (c : Canvas) : bool :=
  negb (width c =? 0)%N && negb (height c =? 0)%N.

(** What the HTML Standard requires of [toDataURL] on a bitmap with no
    pixels. *)
Definition encodes_no_pixels (toDataURL : Canvas → string → Q → string) : Prop :=
  ∀ c mime q, width c = 0%N ∨ height c = 0%N → toDataURL c mime q = "data:,".

(** And on a bitmap with pixels: a data URL whose payload, the encoded
    image, is not empty. *)
Definition encodes_pixels (toDataURL : Canvas → string → Q → string) : Prop :=
  ∀ c mime q, has_pixels c = true →
    ∃ data, payload (toDataURL c mime q) = JsString data ∧ truthy_string data = true.

(** The backing element of the source the sampler polls is absent: the
    component is not mounted, or its canvas (for the camera: its video, its
    canvas or the 2D context) is not there. *)
Definition source_absent (mode : TrackingMode) (w : World) : bool :=
  match mode with
  | digital =>
      match canvasRef w with
      | Some r => match dc_canvasRef r with None => true | Some _ => false end
      | None => true
      end
  | physical =>
      match cameraRef w with
      | Some r => unavailable r
      | None => true
      end
  end.

(** The source the sampler polls has no current frame: its backing
    element is absent, or it is the camera and its video is not ready. *)
Definition source_without_frame (mode : TrackingMode) (w : World) : bool :=
  source_absent mode w
  || match mode with
     | digital => false
     | physical =>
         match cameraRef w with
         | Some r => no_current_frame r
         | None => true
         end
     end.

(** The frame the sampler has when the backing element is absent: the
    null of [getFrame], or [undefined] when the component is not mounted
    and [getFrame] is not called. *)
Definition absent_frame (mode : TrackingMode) (w : World) : JsFrame :=
  match mode with
  | digital => match canvasRef w with Some _ => JsNull | None => JsUndefined end
  | physical => match cameraRef w with Some _ => JsNull | None => JsUndefined end
  end.

(** ** Sample inputs *)

(** A stand-in for the decoder: half a second of 24 kHz audio per
    character of payload. *)
Definition sample_decode (data : string) : AudioBuffer :=
  {| frames := 12000 * N.of_nat (String.length data); sampleRate := 24000 |}.

Definition audio_message (data : string) : Message :=
  {| serverContent := Some {| inputTranscription := None; outputTranscription := None;
                              modelTurn := Some [{| inlineData := Some data |}];
                              interrupted := false |} |}.

Definition interruption_message : Message :=
  {| serverContent := Some {| inputTranscription := None; outputTranscription := None;
                              modelTurn := None; interrupted := true |} |}.

Definition at_time (t : Q) : Clock := {| dateNow := 0; currentTime := t |}.

(** A session brought up from the first render: microphone stream 1,
    channel 1, sampling timer 1. *)
Definition live_session : World :=
  startSession (Some 1%positive) 1%positive (Opened 1%positive) initial.

(** The same session with three buffers (1 s, 1 s, 2 s) received at
    output-clock time 5: they are queued up to time 9. *)
Definition three_queued : World :=
  run sample_decode
    [(at_time 5, audio_message "ab"); (at_time 5, audio_message "cd");
     (at_time 5, audio_message "efgh")] live_session.

(** A camera component just mounted: the video element has received no
    data, the hidden canvas has its default size. *)
Definition camera_not_ready : CameraTrackerRef :=
  {| videoRef := Some {| srcObject := None; readyState := 0; videoWidth := 0; videoHeight := 0 |};
     ct_canvasRef := Some {| width := 300; height := 150; context2d := true |} |}.

(** A camera whose video has its metadata (640 by 480) but no frame
    yet. *)
Definition camera_metadata_only : CameraTrackerRef :=
  {| videoRef := Some {| srcObject := Some 7%positive; readyState := 1;
                         videoWidth := 640; videoHeight := 480 |};
     ct_canvasRef := Some {| width := 300; height := 150; context2d := true |} |}.

(** The live session in sketchbook mode, its camera not ready. *)
Definition sketchbook_session : World :=
  set_cameraRef (Some camera_not_ready) (set_trackingMode physical live_session).

(** ** Whole runs of the component *)

(** What can happen to the mounted component: clicks, the settling of
    the promises [startSession] awaits, the callbacks of the channel, the
    sampling timer, the microphone pump and the [ended] event of a source.
    Any order is allowed, which covers every order the browser produces. *)
Inductive Event :=
| EClickSession
| EClickMode (m : TrackingMode)
| EStartSession
| EMedia (r : option Stream) (h : Handle)
| EOpen (s : Stream) (t : TimerId)
| EResolved (r : option Handle)
| EStopSession
| EMessage (c : Clock) (m : Message)
| EError
| EClose
| ETick (mode : TrackingMode)
| EAudioProcess (pcm : string)
| EEnded (n : Node).

Section Steps.
Variable decodeAudioData : string → AudioBuffer.
Variable toDataURL : Canvas → string → Q → string.

Definition step (e : Event) (w : World) : World :=
  match e with
  | EClickSession => click_session w
  | EClickMode m => click_mode m w
  | EStartSession => startSession_begin w
  | EMedia r h => startSession_media r h w
  | EOpen s t => onopen s t w
  | EResolved r => startSession_resolved r w
  | EStopSession => stopSession w
  | EMessage c m => onmessage decodeAudioData c m w
  | EError => onerror w
  | EClose => onclose w
  | ETick mode => tick toDataURL mode w
  | EAudioProcess pcm => onaudioprocess pcm w
  | EEnded n => onended n w
  end.

Definition steps (evs : list Event) (w : World) : World :=
  foldl (λ w e, step e w) w evs.
End Steps.

(** The sources a trace starts, stops, and the audio contexts it
    creates, in call order. *)
Definition started (tr : list Call) : list Node :=
  omap (λ c, match c with SourceStart n _ _ => Some n | _ => None end) tr.

Definition stopped (tr : list Call) : list Node :=
  omap (λ c, match c with SourceStop n => Some n | _ => None end) tr.

Definition contexts (tr : list Call) : list positive :=
  omap (λ c, match c with NewAudioContext r => Some r | _ => None end) tr.

(** What a trace sends to the remote service. *)
Definition sent (tr : list Call) : list (Handle * Media) :=
  omap (λ c, match c with SendRealtimeInput h m => Some (h, m) | _ => None end) tr.

(** The bookkeeping of playback sources is sound: no source is started
    twice; no source is stopped twice, and none that is stopped is still
    tracked or tracked twice; what is stopped or tracked was started; and
    the identity of the next source is new. *)
Definition nodes_ok (w : World) : Prop :=
  NoDup (started (trace w))
  ∧ NoDup (stopped (trace w) ++ sourcesRef w)
  ∧ (∀ n, n ∈ stopped (trace w) ++ sourcesRef w → n ∈ started (trace w))
  ∧ (∀ n, n ∈ started (trace w) → (n < nextNode w)%positive).

(** A schedule in which nothing starts before [t] and no entry starts
    before the one ahead of it has ended. *)
Fixpoint spaced (t : Q) (l : list (Q * Q)) : Prop :=
  match l with
  | [] => True
  | (s, d) :: tl => (t <= s)%Q ∧ spaced (s + d) tl
  end.

Section Arrivals.
Variable decodeAudioData : string → AudioBuffer.

(** The clock readings at which the buffers of a series arrive. *)
Definition arrivals (evs : list (Clock * Message)) : list Q :=
  omap (λ e, match audio_of decodeAudioData e.2 with
             | Some _ => Some (currentTime e.1)
             | None => None
             end) evs.
End Arrivals.

(** The event is a message of the remote service. *)
Definition is_message (e : Event) : bool :=
  match e with
  | EMessage _ _ => true
  | _ => false
  end.

(** The event runs the first piece of [startSession]. *)
Definition is_start (e : Event) : bool :=
  match e with
  | EClickSession | EStartSession => true
  | _ => false
  end.

(** The track stops a trace holds. *)
Definition released (tr : list Call) : list Stream :=
  omap (λ c, match c with TrackStop s => Some s | _ => None end) tr.

(** The event is one of the two that feed the uplink: a sampling tick
    or a block of microphone audio. *)
Definition is_uplink (e : Event) : bool :=
  match e with
  | ETick _ | EAudioProcess _ => true
  | _ => false
  end.

(** The string has no comma. *)
Fixpoint no_comma (s : string) : bool :=
  match s with
  | EmptyString => true
  | String c r => negb (Ascii.eqb c ","%char) && no_comma r
  end.

(** ** Drawing on the canvas *)

(** What the pointer handlers of [DrawingCanvas] do to the 2D context,
    and the [onStroke] callback they may invoke. *)
Inductive DrawCall :=
| BeginPath
| MoveTo (x y : Q)
| LineTo (x y : Q)
| Stroke
| ClosePath
| SetFillStyle (c : string)
| FillRect (x y : Q) (w h : N)
| SetStrokeStyle (c : string)
| SetLineWidth (n : Z)
| OnStroke.

(** The canvas element as the handlers see it: its bitmap and the
    left and top of its bounding rectangle. *)
Record CanvasElement := {
  bitmap : Canvas;
  rect_left : Q;
  rect_top : Q
}.

(** State and refs of [DrawingCanvas]; [drawn] lists the calls made,
    oldest first.  A state update is taken to be in force when the next
    handler runs. *)
Record Drawing := {
  dr_canvasRef : option CanvasElement;
  contextRef : bool;          (* [contextRef.current] is set *)
  isDrawing : bool;
  color : string;
  brushSize : Z;
  onStroke : bool;            (* the [onStroke] prop is given *)
  drawn : list DrawCall
}.

Definition set_isDrawing (v : bool) (d : Drawing) : Drawing :=
  {| dr_canvasRef := dr_canvasRef d; contextRef := contextRef d; isDrawing := v;
     color := color d; brushSize := brushSize d; onStroke := onStroke d;
     drawn := drawn d |}.

Definition set_brush (c : string) (n : Z) (d : Drawing) : Drawing :=
  {| dr_canvasRef := dr_canvasRef d; contextRef := contextRef d;
     isDrawing := isDrawing d; color := c; brushSize := n; onStroke := onStroke d;
     drawn := drawn d |}.

Definition draws (cs : list DrawCall) (d : Drawing) : Drawing :=
  {| dr_canvasRef := dr_canvasRef d; contextRef := contextRef d;
     isDrawing := isDrawing d; color := color d; brushSize := brushSize d;
     onStroke := onStroke d; drawn := drawn d ++ cs |}.

(** [contextRef.current?.method(...)] *)
Definition on_context (cs : list DrawCall) (d : Drawing) : Drawing :=
  if contextRef d then draws cs d else d.

(** A mouse event carries offsets relative to the canvas; a touch event
    carries the client position of its first touch. *)
Inductive Pointer :=
| Mouse (offsetX offsetY : Q)
| Touch (clientX clientY : Q).

Definition getCoordinates (e : Pointer) (d : Drawing) : Q * Q :=
  match e with
  | Mouse x y => (x, y)
  | Touch x y =>
      match dr_canvasRef d with
      | Some el => (x - rect_left el, y - rect_top el)%Q
      | None => (x - 0, y - 0)%Q
      end
  end.

Definition startDrawing (e : Pointer) (d : Drawing) : Drawing :=
  let '(x, y) := getCoordinates e d in
  let d := on_context [BeginPath] d in
  let d := on_context [MoveTo x y] d in
  set_isDrawing true d.

Definition draw (e : Pointer) (d : Drawing) : Drawing :=
  if negb (isDrawing d) then d
  else
    let '(x, y) := getCoordinates e d in
    let d := on_context [LineTo x y] d in
    let d := on_context [Stroke] d in
    if onStroke d then draws [OnStroke] d else d.

Definition stopDrawing (d : Drawing) : Drawing :=
  set_isDrawing false (on_context [ClosePath] d).

(** [clear] of the imperative handle, and the Clear button. *)
Definition clear (d : Drawing) : Drawing :=
  match dr_canvasRef d with
  | Some el =>
      if contextRef d
      then draws [SetFillStyle "#1e293b";
                  FillRect 0 0 (width (bitmap el)) (height (bitmap el))] d
      else d
  | None => d
  end.

(** The colour picker and the size slider, each followed by the effect
    that copies the brush to the context. *)
Definition brush_effect (d : Drawing) : Drawing :=
  on_context [SetStrokeStyle (color d); SetLineWidth (brushSize d)] d.

Definition setColor (c : string) (d : Drawing) : Drawing :=
  brush_effect (set_brush c (brushSize d) d).

Definition setBrushSize (n : Z) (d : Drawing) : Drawing :=
  brush_effect (set_brush (color d) n d).

Inductive DrawEvent :=
| PointerDown (e : Pointer)    (* mousedown, touchstart *)
| PointerMove (e : Pointer)    (* mousemove, touchmove *)
| PointerUp                    (* mouseup, mouseleave, touchend *)
| ClickClear
| PickColor (c : string)
| SlideSize (n : Z).

Definition draw_step (e : DrawEvent) (d : Drawing) : Drawing :=
  match e with
  | PointerDown p => startDrawing p d
  | PointerMove p => draw p d
  | PointerUp => stopDrawing d
  | ClickClear => clear d
  | PickColor c => setColor c d
  | SlideSize n => setBrushSize n d
  end.

Definition draw_steps (evs : list DrawEvent) (d : Drawing) : Drawing :=
  foldl (λ d e, draw_step e d) d evs.

(** Reads a list of context calls with the pen up or down: [moveTo]
    puts it down, [closePath] lifts it, and a [lineTo] or [stroke] is in
    order only while it is down.  The result is the pen at the end, or
    [None] when a call was out of order. *)
Fixpoint pen_after (pen : bool) (cs : list DrawCall) : option bool :=
  match cs with
  | [] => Some pen
  | MoveTo _ _ :: tl => pen_after true tl
  | ClosePath :: tl => pen_after false tl
  | (LineTo _ _ | Stroke) :: tl => if pen then pen_after pen tl else None
  | _ :: tl => pen_after pen tl
  end.

(** A sample canvas: mounted with a context, 800 by 600, at (10, 20). *)
Definition sample_drawing : Drawing :=
  {| dr_canvasRef := Some {| bitmap := {| width := 1600; height := 1200; context2d := true |};
                             rect_left := 10; rect_top := 20 |};
     contextRef := true; isDrawing := false; color := "#f8fafc"; brushSize := 2;
     onStroke := false; drawn := [] |}.

(** The calls one pointer move adds to a stroke in progress. *)
Definition segment (d : Drawing) (e : Pointer) : list DrawCall :=
  [LineTo (getCoordinates e d).1 (getCoordinates e d).2; Stroke]
  ++ (if onStroke d then [OnStroke] else []).

(** A series of pointer moves. *)
Definition draw_moves (es : list Pointer) (d : Drawing) : Drawing :=
  foldl (λ d e, draw e d) d es.

(** The call goes to the 2D context (it is not the [onStroke]
    callback). *)
Definition on_canvas (c : DrawCall) : bool :=
  match c with
  | OnStroke => false
  | _ => true
  end.

(** A drawing component whose canvas yielded no 2D context, with an
    [onStroke] callback. *)
Definition drawing_without_context : Drawing :=
  {| dr_canvasRef := Some {| bitmap := {| width := 1600; height := 1200; context2d := false |};
                             rect_left := 10; rect_top := 20 |};
     contextRef := false; isDrawing := false; color := "#f8fafc"; brushSize := 2;
     onStroke := true; drawn := [] |}.

(** * Properties *)

Local Arguments Qplus : simpl never.
Local Arguments Qmax : simpl never.
Local Arguments Qle_bool : simpl never.
Local Arguments duration : simpl never.

(** ** Shared facts about the handlers *)

Lemma duration_nonneg (b : AudioBuffer) : (0 <= duration b)%Q.
Proof.
  unfold duration, Qle. simpl. lia.
Qed.

Lemma Qmax_ahead (cursor now : Q) : (now <= cursor)%Q → Qmax cursor now = cursor.
Proof.
  intros Hle. unfold Qmax, GenericMinMax.gmax.
  destruct (cursor ?= now)%Q eqn:Hcmp; try reflexivity.
  apply Qlt_alt in Hcmp. exfalso. exact (Qlt_not_le _ _ Hcmp Hle).
Qed.

Lemma Qmax_origin (now : Q) : (0 <= now)%Q → (Qmax 0 now == now)%Q.
Proof.
  intros Hle. rewrite Q.max_comm. apply Q.max_l. exact Hle.
Qed.

Lemma since_app (w w' : World) (l : list Call) :
  trace w' = trace w ++ l → since w w' = l.
Proof.
  intros H. unfold since. rewrite H. apply drop_app_length.
Qed.

Lemma addTranscription_frame (now : Z) (t : string) (o : Origin) (w : World) :
  trace (addTranscription now t o w) = trace w
  ∧ nextStartTimeRef (addTranscription now t o w) = nextStartTimeRef w
  ∧ nextNode (addTranscription now t o w) = nextNode w
  ∧ sourcesRef (addTranscription now t o w) = sourcesRef w.
Proof. done. Qed.

Section MessageFacts.
Variable decodeAudioData : string → AudioBuffer.

(** A message without the interruption flag: what it adds to the trace
    and where it leaves the cursor. *)
Lemma onmessage_unflagged (c : Clock) (m : Message) (w : World) :
  flagged m = false →
  trace (onmessage decodeAudioData c m w)
  = trace w ++ match audio_of decodeAudioData m with
               | Some b => [SourceStart (nextNode w)
                              (Qmax (nextStartTimeRef w) (currentTime c)) b]
               | None => []
               end
  ∧ nextStartTimeRef (onmessage decodeAudioData c m w)
    = match audio_of decodeAudioData m with
      | Some b => (Qmax (nextStartTimeRef w) (currentTime c) + duration b)%Q
      | None => nextStartTimeRef w
      end.
Proof.
  intros Hflag. destruct m as [[sc|]]; [|by rewrite app_nil_r].
  destruct sc as [it ot mt fl]. unfold flagged in Hflag. simpl in Hflag. subst fl.
  unfold onmessage, audio_of, audioData. simpl.
  destruct it, ot, mt as [[|[[d|]] ps]|]; simpl;
    try destruct (truthy_string d); simpl; rewrite ?app_nil_r; done.
Qed.
End MessageFacts.

Lemma schedule_app (a b : list Call) : schedule (a ++ b) = schedule a ++ schedule b.
Proof. apply omap_app. Qed.

Lemma chained_back_to_back (t : Q) (l : list (Q * Q)) :
  chained_from t l → back_to_back l.
Proof.
  revert t. induction l as [|[s d] tl IH]; intros t Hch; [done|].
  destruct Hch as (_ & Hd & Htl).
  destruct tl as [|[s' d'] tl']; [done|].
  destruct Htl as (Hs' & Hrest). split; [done|]. split.
  - rewrite Hs'. rewrite <- (Qplus_0_r s) at 1. apply Qplus_le_r. exact Hd.
  - apply (IH (s + d)%Q). split; done.
Qed.

Section Playback.
Variable decodeAudioData : string → AudioBuffer.

Lemma run_chained (evs : list (Clock * Message)) (w : World) :
  Forall (λ e, flagged e.2 = false) evs →
  ahead decodeAudioData evs w = true →
  ∃ l, trace (run decodeAudioData evs w) = trace w ++ l
       ∧ chained_from (nextStartTimeRef w) (schedule l).
Proof.
  revert w. induction evs as [|[c m] evs IH]; intros w Hflags Hahead.
  - exists []. by rewrite app_nil_r.
  - apply Forall_cons in Hflags as [Hflag Hflags]. simpl in Hflag, Hahead.
    apply andb_true_iff in Hahead as [Hnow Hahead].
    destruct (onmessage_unflagged decodeAudioData c m w Hflag) as [Htrace Hcursor].
    destruct (IH _ Hflags Hahead) as (l & Hl & Hchain).
    eexists. split.
    + simpl. rewrite Hl, Htrace, <- app_assoc. reflexivity.
    + rewrite schedule_app. rewrite Hcursor in Hchain.
      destruct (audio_of decodeAudioData m) as [b|]; simpl; [|done].
      split; [|split; [apply duration_nonneg | done]].
      apply Qmax_ahead. by apply Qle_bool_iff.
Qed.

(** C1.  A message that brings audio schedules its buffer at
    max(cursor, output clock now) and advances the cursor by the buffer's
    duration; and when, after a first message, every further buffer
    arrives while the output clock is at or before the cursor (and no
    interruption intervenes), the start times scheduled by the whole
    series are non-decreasing and exactly back-to-back:
    start[i+1] = start[i] + d[i]. *)
Theorem enqueue_back_to_back
    (c0 : Clock) (m0 : Message) (evs : list (Clock * Message)) (w : World) :
  Forall (λ e, flagged e.2 = false) ((c0, m0) :: evs) →
  ahead decodeAudioData evs (onmessage decodeAudioData c0 m0 w) = true →
  schedule (since w (onmessage decodeAudioData c0 m0 w))
  = match audio_of decodeAudioData m0 with
    | Some b => [(Qmax (nextStartTimeRef w) (currentTime c0), duration b)]
    | None => []
    end
  ∧ nextStartTimeRef (onmessage decodeAudioData c0 m0 w)
    = match audio_of decodeAudioData m0 with
      | Some b => (Qmax (nextStartTimeRef w) (currentTime c0) + duration b)%Q
      | None => nextStartTimeRef w
      end
  ∧ back_to_back (schedule (since w (run decodeAudioData ((c0, m0) :: evs) w))).
Proof.
  intros Hflags Hahead.
  apply Forall_cons in Hflags as [Hflag Hflags]. simpl in Hflag.
  destruct (onmessage_unflagged decodeAudioData c0 m0 w Hflag) as [Htrace Hcursor].
  destruct (run_chained evs _ Hflags Hahead) as (l & Hl & Hchain).
  split; [|split; [exact Hcursor|]].
  - rewrite (since_app _ _ _ Htrace). by destruct (audio_of decodeAudioData m0).
  - assert (Hall : trace (run decodeAudioData ((c0, m0) :: evs) w)
                   = trace w ++ (match audio_of decodeAudioData m0 with
                                 | Some b => [SourceStart (nextNode w)
                                     (Qmax (nextStartTimeRef w) (currentTime c0)) b]
                                 | None => []
                                 end ++ l)).
    { simpl. rewrite Hl, Htrace, <- app_assoc. reflexivity. }
    rewrite (since_app _ _ _ Hall), schedule_app. rewrite Hcursor in Hchain.
    destruct (audio_of decodeAudioData m0) as [b|].
    + apply (chained_back_to_back (Qmax (nextStartTimeRef w) (currentTime c0))).
      simpl. split; [done|]. split; [apply duration_nonneg | done].
    + by apply (chained_back_to_back (nextStartTimeRef w)).
Qed.
End Playback.

(** Three buffers on the live session: the first at clock 5, the next
    two while the clock is still behind the cursor. *)
Lemma enqueue_back_to_back_witness :
  let evs := [(at_time (11 # 2), audio_message "abcd"); (at_time 7, audio_message "a")] in
  Forall (λ e, flagged e.2 = false) ((at_time 5, audio_message "ab") :: evs)
  ∧ ahead sample_decode evs
      (onmessage sample_decode (at_time 5) (audio_message "ab") live_session) = true
  ∧ back_to_back
      (schedule (since live_session
         (run sample_decode ((at_time 5, audio_message "ab") :: evs) live_session))).
Proof.
  intros evs.
  assert (Hflags : Forall (λ e, flagged e.2 = false) ((at_time 5, audio_message "ab") :: evs))
    by (repeat constructor).
  assert (Hahead : ahead sample_decode evs
            (onmessage sample_decode (at_time 5) (audio_message "ab") live_session) = true)
    by (vm_compute; reflexivity).
  split; [exact Hflags|]. split; [exact Hahead|].
  exact (proj2 (proj2 (enqueue_back_to_back sample_decode _ _ _ _ Hflags Hahead))).
Defined.

(** ** Interruption *)

Lemma schedule_stops (l : list Node) : schedule (SourceStop <$> l) = [].
Proof. induction l; done. Qed.

Lemma elem_of_set_add (n m : Node) (s : list Node) : n ∈ s → n ∈ set_add m s.
Proof.
  intros Hn. unfold set_add. case_bool_decide; [done|].
  apply elem_of_app. by left.
Qed.

Section Interruption.
Variable decodeAudioData : string → AudioBuffer.

Lemma onmessage_split (c : Clock) (m : Message) (w : World) :
  onmessage decodeAudioData c m w
  = if flagged m then interruptAll (deliver decodeAudioData c m w)
    else deliver decodeAudioData c m w.
Proof.
  unfold onmessage, deliver, flagged.
  destruct (serverContent m) as [sc|]; [destruct (interrupted sc)|]; reflexivity.
Qed.

Lemma deliver_facts (c : Clock) (m : Message) (w : World) :
  trace (deliver decodeAudioData c m w)
  = trace w ++ match audio_of decodeAudioData m with
               | Some b => [SourceStart (nextNode w)
                              (Qmax (nextStartTimeRef w) (currentTime c)) b]
               | None => []
               end
  ∧ sourcesRef (deliver decodeAudioData c m w)
    = match audio_of decodeAudioData m with
      | Some _ => set_add (nextNode w) (sourcesRef w)
      | None => sourcesRef w
      end.
Proof.
  unfold deliver, audio_of.
  destruct (serverContent m ≫= inputTranscription),
           (serverContent m ≫= outputTranscription),
           (audioData m) as [d|]; simpl;
    try destruct (truthy_string d); simpl; rewrite ?app_nil_r; done.
Qed.

(** The whole of what a message adds to the trace: the start of its
    buffer, then the stops of its interruption. *)
Lemma onmessage_trace (c : Clock) (m : Message) (w : World) :
  trace (onmessage decodeAudioData c m w)
  = trace w
    ++ match audio_of decodeAudioData m with
       | Some b => [SourceStart (nextNode w)
                      (Qmax (nextStartTimeRef w) (currentTime c)) b]
       | None => []
       end
    ++ (if flagged m then SourceStop <$> sourcesRef (deliver decodeAudioData c m w)
        else []).
Proof.
  rewrite onmessage_split. destruct (deliver_facts c m w) as [Htrace _].
  destruct (flagged m).
  - unfold interruptAll. simpl. rewrite Htrace, <- app_assoc. reflexivity.
  - rewrite app_nil_r. exact Htrace.
Qed.

Lemma interruption_reset (c : Clock) (m : Message) (w : World) :
  flagged m = true →
  sourcesRef (onmessage decodeAudioData c m w) = []
  ∧ nextStartTimeRef (onmessage decodeAudioData c m w) = 0%Q.
Proof.
  intros Hflag. by rewrite onmessage_split, Hflag.
Qed.

(** C2, as the code has it.  A message that carries the interruption
    flag stops every source of the live set (those present before the
    message and the one the same message may have started), empties the
    set, and resets the cursor to 0, the origin of the output clock. *)
Theorem interruption_stops_all (c : Clock) (m : Message) (w : World) :
  flagged m = true →
  sourcesRef (onmessage decodeAudioData c m w) = []
  ∧ nextStartTimeRef (onmessage decodeAudioData c m w) = 0%Q
  ∧ (∀ n, n ∈ sourcesRef w → SourceStop n ∈ since w (onmessage decodeAudioData c m w))
  ∧ (∀ n t b, SourceStart n t b ∈ since w (onmessage decodeAudioData c m w) →
              SourceStop n ∈ since w (onmessage decodeAudioData c m w)).
Proof.
  intros Hflag.
  rewrite (since_app _ _ _ (onmessage_trace c m w)).
  destruct (interruption_reset c m w Hflag) as [Hempty Hcursor].
  rewrite Hflag.
  destruct (deliver_facts c m w) as [_ Hsources]. rewrite Hsources.
  split; [done|]. split; [done|]. split.
  - intros n Hn. apply elem_of_app. right. apply list_elem_of_fmap.
    exists n. split; [done|].
    destruct (audio_of decodeAudioData m); [by apply elem_of_set_add | done].
  - intros n t b Hstart. apply elem_of_app in Hstart as [Hstart|Hstart].
    + destruct (audio_of decodeAudioData m) as [b'|]; [|by apply elem_of_nil in Hstart].
      apply list_elem_of_singleton in Hstart. injection Hstart as -> _ _.
      apply elem_of_app. right. apply list_elem_of_fmap.
      exists (nextNode w). split; [done|].
      unfold set_add. case_bool_decide; [done|].
      apply elem_of_app. right. by apply list_elem_of_singleton.
    + apply list_elem_of_fmap in Hstart as (k & Hk & _). discriminate Hk.
Qed.

(** C3.  Whatever the cursor and the live set were, the first buffer
    that arrives after an interruption is scheduled at the output
    clock's current time. *)
Theorem interrupt_then_enqueue_now
    (c1 c2 : Clock) (m1 m2 : Message) (b : AudioBuffer) (w : World) :
  flagged m1 = true →
  audio_of decodeAudioData m2 = Some b →
  (0 <= currentTime c2)%Q →
  schedule (since (onmessage decodeAudioData c1 m1 w)
              (onmessage decodeAudioData c2 m2 (onmessage decodeAudioData c1 m1 w)))
  = [(Qmax 0 (currentTime c2), duration b)]
  ∧ (Qmax 0 (currentTime c2) == currentTime c2)%Q.
Proof.
  intros Hflag Haudio Hclock. split; [|by apply Qmax_origin].
  rewrite (since_app _ _ _ (onmessage_trace c2 m2 _)).
  destruct (interruption_reset c1 m1 w Hflag) as [_ Hcursor].
  rewrite Haudio, Hcursor, schedule_app. simpl.
  destruct (flagged m2); [by rewrite schedule_stops | done].
Qed.
End Interruption.

(** Back-to-back in numbers: the three queued buffers start at 5, 6 and
    7 and last 1, 1 and 2 seconds. *)
Example schedule_of_three :
  (λ p, (Qred p.1, Qred p.2)) <$> schedule (since live_session three_queued)
  = [(5, 1); (6, 1); (7, 2)]%Q.
Proof. vm_compute. reflexivity. Qed.

(** An interruption of the three queued buffers. *)
Lemma interruption_stops_all_witness :
  flagged interruption_message = true
  ∧ sourcesRef (onmessage sample_decode (at_time 6) interruption_message three_queued) = []
  ∧ nextStartTimeRef (onmessage sample_decode (at_time 6) interruption_message three_queued)
    = 0%Q.
Proof.
  split; [reflexivity|].
  destruct (interruption_stops_all sample_decode (at_time 6) interruption_message
              three_queued eq_refl) as (Hempty & Hcursor & _).
  split; [exact Hempty | exact Hcursor].
Defined.

(** The scenario of three queued buffers: one interruption stops all
    three. *)
Example interruption_of_three :
  sourcesRef three_queued = [1; 2; 3]%positive
  ∧ since three_queued
      (onmessage sample_decode (at_time 6) interruption_message three_queued)
    = [SourceStop 1%positive; SourceStop 2%positive; SourceStop 3%positive].
Proof. split; vm_compute; reflexivity. Qed.

(** C2 as stated fails: interrupted at output-clock time 6, the cursor
    is not 6 afterwards (it is 0). *)
Lemma interruption_cursor_is_not_now :
  ¬ (nextStartTimeRef (onmessage sample_decode (at_time 6) interruption_message three_queued)
     == currentTime (at_time 6))%Q.
Proof. vm_compute. intros H. discriminate H. Qed.

(** Interrupted at clock 6 with audio queued up to 9; the next buffer
    arrives at clock 6.5. *)
Lemma interrupt_then_enqueue_now_witness :
  flagged interruption_message = true
  ∧ audio_of sample_decode (audio_message "ab") = Some (sample_decode "ab")
  ∧ (0 <= currentTime (at_time (13 # 2)))%Q
  ∧ (Qmax 0 (currentTime (at_time (13 # 2))) == currentTime (at_time (13 # 2)))%Q.
Proof.
  assert (Hclock : (0 <= currentTime (at_time (13 # 2)))%Q) by (vm_compute; discriminate).
  split; [reflexivity|]. split; [reflexivity|]. split; [exact Hclock|].
  exact (proj2 (interrupt_then_enqueue_now sample_decode (at_time 6) (at_time (13 # 2))
                  interruption_message (audio_message "ab") (sample_decode "ab")
                  three_queued eq_refl eq_refl Hclock)).
Defined.

(** ** Teardown *)

Lemma stopSession_trace (w : World) :
  trace (stopSession w)
  = trace w
    ++ match sessionRef w with Some h => [SessionClose h] | None => [] end
    ++ match frameIntervalRef w with Some t => [ClearInterval t] | None => [] end
    ++ (SourceStop <$> sourcesRef w).
Proof.
  unfold stopSession.
  destruct (sessionRef w), (frameIntervalRef w) eqn:Htimer; simpl;
    rewrite ?Htimer; simpl; rewrite <- ?app_assoc; reflexivity.
Qed.

Lemma stopSession_refs (w : World) :
  sessionRef (stopSession w) = None
  ∧ frameIntervalRef (stopSession w) = None
  ∧ sourcesRef (stopSession w) = []
  ∧ isActive (stopSession w) = false.
Proof.
  unfold stopSession.
  destruct (sessionRef w) eqn:Hsession, (frameIntervalRef w) eqn:Htimer; simpl;
    rewrite ?Htimer; simpl; rewrite ?Hsession, ?Htimer; done.
Qed.

Lemma stopSession_frame (w : World) :
  nextStartTimeRef (stopSession w) = nextStartTimeRef w
  ∧ isConnecting (stopSession w) = isConnecting w
  ∧ nextNode (stopSession w) = nextNode w.
Proof.
  unfold stopSession.
  destruct (sessionRef w), (frameIntervalRef w) eqn:Htimer; simpl;
    rewrite ?Htimer; done.
Qed.

(** Calls that neither grant nor release a stream leave it held or not
    as it was. *)
Lemma mic_held_app (s : Stream) (tr l : list Call) :
  GetUserMedia (Some s) ∉ l → TrackStop s ∉ l →
  mic_held s (tr ++ l) = mic_held s tr.
Proof.
  intros Hgrant Hstop. unfold mic_held. f_equal; [|f_equal];
    apply bool_decide_ext; rewrite elem_of_app; tauto.
Qed.

(** A source that ended is no longer tracked. *)
Lemma onended_untracks (n : Node) (w : World) : n ∉ sourcesRef (onended n w).
Proof.
  unfold onended, set_delete. simpl. intros Hin.
  apply list_elem_of_filter in Hin as [Hne _]. by apply Hne.
Qed.

(** Switching the tracking mode while active tears the session down. *)
Lemma click_mode_stops (m : TrackingMode) (w : World) :
  isActive w = true →
  sessionRef (click_mode m w) = None
  ∧ frameIntervalRef (click_mode m w) = None
  ∧ sourcesRef (click_mode m w) = []
  ∧ phase (click_mode m w) = (if isConnecting w then Connecting else Idle).
Proof.
  intros Hactive. unfold click_mode. rewrite Hactive.
  destruct (stopSession_refs w) as (Hsession & Htimer & Hsources & Hstopped).
  destruct (stopSession_frame w) as (_ & Hconn & _).
  destruct (stopSession w) as [a c tm ts cv cam se ac so nx fr nn tr].
  unfold phase. simpl in *. by subst.
Qed.

(** Refutes membership of a call in the calls a handler adds, when no
    call of that shape is among them. *)
Ltac absent_call :=
  let H := fresh "Hin" in
  intros H;
  repeat (apply elem_of_app in H as [H|H]);
  repeat case_match;
  try (by apply elem_of_nil in H);
  try (apply list_elem_of_singleton in H; discriminate H);
  try (apply list_elem_of_fmap in H as (? & H & _); discriminate H);
  try (repeat (apply elem_of_cons in H as [H|H]; [discriminate H|]);
       by apply elem_of_nil in H).

(** C4, as the code has it.  From every state, [stopSession] closes the
    session handle if one is stored, cancels the sampling timer if one is
    stored, stops every tracked playback source, empties the live set and
    clears the active flag, making exactly those calls; it does not
    release the microphone: every stream held before is held after. *)
Theorem stopSession_teardown (w : World) :
  sessionRef (stopSession w) = None
  ∧ frameIntervalRef (stopSession w) = None
  ∧ sourcesRef (stopSession w) = []
  ∧ isActive (stopSession w) = false
  ∧ since w (stopSession w)
    = match sessionRef w with Some h => [SessionClose h] | None => [] end
      ++ match frameIntervalRef w with Some t => [ClearInterval t] | None => [] end
      ++ (SourceStop <$> sourcesRef w)
  ∧ ∀ s, mic_held s (trace (stopSession w)) = mic_held s (trace w).
Proof.
  destruct (stopSession_refs w) as (Hsession & Htimer & Hsources & Hactive).
  repeat (split; [done|]). split.
  - apply since_app, stopSession_trace.
  - intros s. rewrite stopSession_trace. apply mic_held_app; absent_call.
Qed.

(** C4 as stated fails: the session was started with microphone stream
    1, and after [stopSession] that stream is still held. *)
Lemma stopSession_keeps_microphone :
  mic_held 1%positive (trace three_queued) = true
  ∧ mic_held 1%positive (trace (stopSession three_queued)) ≠ false.
Proof. split; [vm_compute; reflexivity | vm_compute; discriminate]. Qed.

(** On a world already torn down, [stopSession] has nothing to do. *)
Lemma stopSession_stopped (w : World) :
  sessionRef w = None → frameIntervalRef w = None → sourcesRef w = [] →
  isActive w = false →
  stopSession w = w.
Proof.
  intros Hsession Htimer Hsources Hactive.
  destruct w as [a c m ts cv cam se ac so nx fr nn tr]. simpl in *. subst.
  unfold stopSession, emits, set_trace. simpl. by rewrite app_nil_r.
Qed.

(** C6.  A second [stopSession] right after a first changes nothing:
    session handle, timer handle, live set, active flag and every other
    field are as the first left them, and no call is made (the trace is
    the same).  [stopSession] is a total function: it never throws. *)
Theorem stopSession_idempotent (w : World) :
  stopSession (stopSession w) = stopSession w.
Proof.
  destruct (stopSession_refs w) as (Hsession & Htimer & Hsources & Hactive).
  by apply stopSession_stopped.
Qed.

(** ** Starting *)

Lemma startSession_trace (media : option Stream) (h : Handle) (conn : ConnectOutcome)
    (w : World) :
  trace (startSession media h conn w)
  = trace w
    ++ (if audioContextRef w then [] else [NewAudioContext 16000; NewAudioContext 24000])
    ++ [GetUserMedia media]
    ++ match media with
       | None => [ConsoleError "Failed to start session:"]
       | Some s =>
           LiveConnect h ::
           match conn with
           | Rejected => [ConsoleError "Failed to start session:"]
           | Opened t => [MicPump s; SetInterval t]
           end
       end.
Proof.
  unfold startSession, startSession_begin.
  destruct (audioContextRef w) eqn:Hctx, media, conn; simpl; rewrite ?Hctx; simpl;
    rewrite <- ?app_assoc; reflexivity.
Qed.

Lemma startSession_begin_frame (w : World) :
  isConnecting (startSession_begin w) = true
  ∧ isActive (startSession_begin w) = isActive w
  ∧ sessionRef (startSession_begin w) = sessionRef w
  ∧ frameIntervalRef (startSession_begin w) = frameIntervalRef w
  ∧ sourcesRef (startSession_begin w) = sourcesRef w
  ∧ nextStartTimeRef (startSession_begin w) = nextStartTimeRef w.
Proof.
  unfold startSession_begin. simpl. by destruct (audioContextRef w).
Qed.

(** C5, as the code has it.  Invoked while a session is Active or
    Connecting, [startSession] tears nothing down: it makes no close,
    clearInterval, stop or track-stop call, and reaches Connecting with the
    prior session handle, timer and live set still in place.  The prior
    session is ended by [stopSession] alone, and the interface never runs
    [startSession] in those phases: the session button does nothing while
    Connecting and runs [stopSession] while Active. *)
Theorem startSession_leaves_prior_session
    (media : option Stream) (h : Handle) (conn : ConnectOutcome) (w : World) :
  phase w ≠ Idle →
  existsb is_teardown (since w (startSession media h conn w)) = false
  ∧ phase (startSession_begin w) = Connecting
  ∧ sessionRef (startSession_begin w) = sessionRef w
  ∧ frameIntervalRef (startSession_begin w) = frameIntervalRef w
  ∧ sourcesRef (startSession_begin w) = sourcesRef w
  ∧ click_session w = (if isConnecting w then w else stopSession w).
Proof.
  intros Hphase.
  destruct (startSession_begin_frame w) as (Hconn & _ & Hsession & Htimer & Hsources & _).
  split.
  { rewrite (since_app _ _ _ (startSession_trace media h conn w)).
    by destruct (audioContextRef w), media, conn. }
  split; [unfold phase; by rewrite Hconn|].
  repeat (split; [done|]).
  unfold click_session. unfold phase in Hphase.
  by destruct (isConnecting w), (isActive w).
Qed.

(** A second start on the active session with three buffers queued. *)
Lemma startSession_leaves_prior_session_witness :
  phase three_queued ≠ Idle
  ∧ existsb is_teardown
      (since three_queued
         (startSession (Some 2%positive) 2%positive (Opened 2%positive) three_queued))
    = false
  ∧ click_session three_queued = stopSession three_queued.
Proof.
  assert (Hphase : phase three_queued ≠ Idle) by (vm_compute; discriminate).
  split; [exact Hphase|].
  destruct (startSession_leaves_prior_session (Some 2%positive) 2%positive
              (Opened 2%positive) three_queued Hphase) as (Hnone & _ & _ & _ & _ & Hclick).
  split; [exact Hnone | exact Hclick].
Defined.

(** C5 as stated fails: [startSession] on the active session reaches
    Connecting, and runs to the end, without one teardown call; the prior
    channel 1 was never closed and its handle is overwritten. *)
Lemma restart_without_teardown :
  phase three_queued = Active
  ∧ phase (startSession_begin three_queued) = Connecting
  ∧ existsb is_teardown (trace (startSession_begin three_queued)) = false
  ∧ existsb is_teardown
      (trace (startSession (Some 2%positive) 2%positive (Opened 2%positive) three_queued))
    = false
  ∧ sessionRef (startSession (Some 2%positive) 2%positive (Opened 2%positive) three_queued)
    = Some 2%positive.
Proof. repeat split; vm_compute; reflexivity. Qed.

(** C8.  When [getUserMedia] rejects during a start from Idle, the
    session passes through Connecting and is back at Idle: it is never
    Active, the error is reported with [console.error], no channel is
    opened and no session handle is stored. *)
Theorem start_denied (h : Handle) (conn : ConnectOutcome) (w : World) :
  phase w = Idle →
  phase (startSession_begin w) = Connecting
  ∧ isActive (startSession_begin w) = false
  ∧ phase (startSession None h conn w) = Idle
  ∧ ConsoleError "Failed to start session:" ∈ since w (startSession None h conn w)
  ∧ (∀ h', LiveConnect h' ∉ since w (startSession None h conn w))
  ∧ sessionRef (startSession None h conn w) = sessionRef w.
Proof.
  intros Hidle. unfold phase in Hidle.
  destruct (isConnecting w) eqn:Hconn; [discriminate|].
  destruct (isActive w) eqn:Hactive; [discriminate|].
  destruct (startSession_begin_frame w) as (Hconn' & Hactive' & _).
  split; [unfold phase; by rewrite Hconn'|].
  split; [by rewrite Hactive'|].
  rewrite (since_app _ _ _ (startSession_trace None h conn w)).
  split; [|split; [|split]].
  - unfold startSession, startSession_begin, phase. simpl.
    destruct (audioContextRef w); simpl; by rewrite Hactive.
  - rewrite !elem_of_app. right. right. by apply list_elem_of_singleton.
  - intros h'. absent_call.
  - unfold startSession, startSession_begin. simpl. by destruct (audioContextRef w).
Qed.

(** The first start of the component, microphone permission denied. *)
Lemma start_denied_witness :
  phase initial = Idle
  ∧ phase (startSession None 1%positive Rejected initial) = Idle
  ∧ since initial (startSession None 1%positive Rejected initial)
    = [NewAudioContext 16000; NewAudioContext 24000; GetUserMedia None;
       ConsoleError "Failed to start session:"].
Proof.
  split; [reflexivity|].
  destruct (start_denied 1%positive Rejected initial eq_refl) as (_ & _ & Hidle & _).
  split; [exact Hidle | vm_compute; reflexivity].
Defined.

(** ** Transcript *)

Lemma slice_last_snoc {A} (n : nat) (l : list A) (x : A) :
  (0 < n)%nat → slice_last n (slice_last n l ++ [x]) = slice_last n (l ++ [x]).
Proof.
  intros Hn. unfold slice_last. rewrite !length_app, length_drop. simpl.
  destruct (decide (length l ≤ n)%nat) as [Hshort|Hlong].
  - replace (length l - n) with 0 by lia. rewrite Nat.sub_0_r. reflexivity.
  - replace (length l - (length l - n) + 1 - n) with 1 by lia.
    rewrite drop_app_le by (rewrite length_drop; lia).
    rewrite drop_drop.
    rewrite drop_app_le by lia.
    f_equal. f_equal. lia.
Qed.

Lemma addTranscriptions_window (es : list (Z * string * Origin)) (w : World)
    (hist : list TranscriptionItem) :
  transcriptions w = slice_last 15 hist →
  transcriptions (addTranscriptions es w) = slice_last 15 (hist ++ (item <$> es)).
Proof.
  revert w hist. induction es as [|e es IH]; intros w hist Hw.
  - simpl. by rewrite app_nil_r.
  - simpl. rewrite (IH _ (hist ++ [item e])).
    + by rewrite <- app_assoc.
    + unfold addTranscription. simpl. rewrite Hw. apply slice_last_snoc. lia.
Qed.

(** C7.  After any series of appends, the transcript holds exactly the
    last 15 entries of what was there followed by what was appended, or
    all of them when they are fewer: the entries before are dropped, oldest
    first; the number retained is the smaller of 15 and the number there
    is; and what is retained is the tail of the append sequence, in append
    order. *)
Theorem transcript_window (e : Z * string * Origin) (es : list (Z * string * Origin))
    (w : World) :
  transcriptions (addTranscriptions (e :: es) w)
  = drop (length (transcriptions w ++ (item <$> e :: es)) - 15)
         (transcriptions w ++ (item <$> e :: es))
  ∧ length (transcriptions (addTranscriptions (e :: es) w))
    = Nat.min 15 (length (transcriptions w) + S (length es))
  ∧ transcriptions (addTranscriptions (e :: es) w)
    `suffix_of` (transcriptions w ++ (item <$> e :: es)).
Proof.
  assert (Heq : transcriptions (addTranscriptions (e :: es) w)
                = drop (length (transcriptions w ++ (item <$> e :: es)) - 15)
                       (transcriptions w ++ (item <$> e :: es))).
  { simpl. rewrite (addTranscriptions_window es _ (transcriptions w ++ [item e])).
    - by rewrite <- app_assoc.
    - reflexivity. }
  rewrite Heq. split; [done|]. split.
  - rewrite length_drop, length_app, length_fmap, length_cons. lia.
  - apply suffix_drop.
Qed.

(** Twenty appends to the empty transcript, stamped 1 to 20, leave the
    entries stamped 6 to 20. *)
Example transcript_of_twenty :
  timestamp <$> transcriptions
                  (addTranscriptions ((λ n, (Z.of_nat n, "hm", ai)) <$> seq 1 20) initial)
  = Z.of_nat <$> seq 6 15.
Proof. vm_compute. reflexivity. Qed.

(** ** Frame sampling *)

Lemma html_toDataURL_no_pixels : encodes_no_pixels html_toDataURL.
Proof.
  intros c mime q Hempty. unfold html_toDataURL. by rewrite bool_decide_eq_true_2.
Qed.

Lemma payload_not_null (url : string) : payload url ≠ JsNull.
Proof. unfold payload. by destruct (split_comma url !! 1%nat). Qed.

Section Sampling.
Variable toDataURL : Canvas → string → Q → string.

(** Polling touches neither the trace nor the session and timer
    handles. *)
Lemma poll_frame (mode : TrackingMode) (w : World) :
  trace (poll toDataURL mode w).2 = trace w
  ∧ frameIntervalRef (poll toDataURL mode w).2 = frameIntervalRef w
  ∧ sessionRef (poll toDataURL mode w).2 = sessionRef w
  ∧ nextStartTimeRef (poll toDataURL mode w).2 = nextStartTimeRef w.
Proof.
  unfold poll. destruct mode; [done|].
  destruct (cameraRef w) as [r|]; [|done].
  by destruct (CameraTracker.getFrame toDataURL r).
Qed.

(** A falsy frame: the tick does nothing beyond the poll itself. *)
Lemma tick_falsy (mode : TrackingMode) (w : World) :
  truthy (poll toDataURL mode w).1 = false →
  tick toDataURL mode w = (poll toDataURL mode w).2.
Proof.
  unfold tick. destruct (poll toDataURL mode w) as [f w']. simpl.
  destruct f as [| |data]; try done. simpl. by intros ->.
Qed.

Lemma tick_cursor (mode : TrackingMode) (w : World) :
  nextStartTimeRef (tick toDataURL mode w) = nextStartTimeRef w.
Proof.
  destruct (poll_frame mode w) as (_ & _ & _ & Hcursor).
  unfold tick. destruct (poll toDataURL mode w) as [f w']. simpl in *.
  destruct f as [| |data]; try done.
  destruct (truthy_string data), (sessionRef w'); done.
Qed.

Lemma tick_timer (mode : TrackingMode) (w : World) :
  frameIntervalRef (tick toDataURL mode w) = frameIntervalRef w.
Proof.
  destruct (poll_frame mode w) as (_ & Htimer & _).
  unfold tick. destruct (poll toDataURL mode w) as [f w']. simpl in *.
  destruct f as [| |data]; try done.
  destruct (truthy_string data), (sessionRef w'); done.
Qed.

(** What a tick adds to the trace, by the frame it polled. *)
Lemma tick_calls (mode : TrackingMode) (w : World) :
  since w (tick toDataURL mode w)
  = match (poll toDataURL mode w).1 with
    | JsString data =>
        if truthy_string data
        then match sessionRef w with
             | Some h => [SendRealtimeInput h (Jpeg data)]
             | None => []
             end
        else []
    | JsNull | JsUndefined => []
    end.
Proof.
  destruct (poll_frame mode w) as (Htrace & _ & Hsession & _).
  unfold tick. destruct (poll toDataURL mode w) as [f w']. simpl in *.
  assert (Hsame : since w w' = []) by (apply since_app; by rewrite app_nil_r).
  destruct f as [| |data]; try done.
  destruct (truthy_string data); [|done].
  rewrite Hsession. destruct (sessionRef w); [|done].
  apply since_app. simpl. by rewrite Htrace.
Qed.

(** [getFrame] with every element in place: the canvas is resized and
    encoded. *)
Lemma getFrame_mounted (v : Video) (c : Canvas) :
  context2d c = true →
  CameraTracker.getFrame toDataURL {| videoRef := Some v; ct_canvasRef := Some c |}
  = (payload (toDataURL
                {| width := videoWidth v;
                   height := if bool_decide (width c = videoWidth v)
                             then height c else videoHeight v;
                   context2d := true |} "image/jpeg" (1 # 2)),
     {| videoRef := Some v;
        ct_canvasRef :=
          Some {| width := videoWidth v;
                  height := if bool_decide (width c = videoWidth v)
                            then height c else videoHeight v;
                  context2d := true |} |}).
Proof.
  intros Hctx. destruct c as [cw ch ctx]. simpl in Hctx. subst ctx.
  unfold CameraTracker.getFrame. simpl.
  destruct (decide (cw = videoWidth v)) as [->|Hne].
  - rewrite (bool_decide_eq_false_2 (videoWidth v ≠ videoWidth v)) by (intros H; by apply H).
    by rewrite bool_decide_eq_true_2.
  - rewrite (bool_decide_eq_true_2 (cw ≠ videoWidth v)) by done.
    by rewrite bool_decide_eq_false_2.
Qed.

(** C9, as the code has it.  When the sampler polls a visual source
    that has no current frame, nothing throws (the functions are total) and
    the sampling timer stays registered.  If the backing element is absent
    (the canvas of the drawing surface; the video, the canvas or the 2D
    context of the camera), [getFrame] returns null (the frame is
    [undefined] when the component itself is not mounted) and nothing is
    sent for that tick.  If the camera's elements are in place but its
    video is not ready, [getFrame] does not return null: it returns the
    payload of the data URL of the resized canvas.  That is the empty
    string when the canvas has no pixels, as it has none while the video
    reports no width, and nothing is sent; it is an encoded frame when the
    canvas has pixels, and that frame is sent to the stored session. *)
Theorem sampler_without_frame (mode : TrackingMode) (w : World) :
  encodes_no_pixels toDataURL →
  encodes_pixels toDataURL →
  source_without_frame mode w = true →
  frameIntervalRef (tick toDataURL mode w) = frameIntervalRef w
  ∧ if source_absent mode w
    then (poll toDataURL mode w).1 = absent_frame mode w
         ∧ since w (tick toDataURL mode w) = []
    else ∃ r v c',
      mode = physical ∧ cameraRef w = Some r ∧ videoRef r = Some v
      ∧ ct_canvasRef (CameraTracker.getFrame toDataURL r).2 = Some c'
      ∧ (videoWidth v = 0%N → has_pixels c' = false)
      ∧ (poll toDataURL mode w).1 = (CameraTracker.getFrame toDataURL r).1
      ∧ (CameraTracker.getFrame toDataURL r).1 ≠ JsNull
      ∧ if has_pixels c'
        then ∃ data,
          (CameraTracker.getFrame toDataURL r).1 = JsString data
          ∧ truthy_string data = true
          ∧ since w (tick toDataURL mode w)
            = match sessionRef w with
              | Some h => [SendRealtimeInput h (Jpeg data)]
              | None => []
              end
        else (CameraTracker.getFrame toDataURL r).1 = JsString ""
             ∧ since w (tick toDataURL mode w) = [].
Proof.
  intros Hempty Hfull Hno. split; [apply tick_timer|].
  rewrite tick_calls.
  destruct mode.
  - (* the drawing surface *)
    unfold source_without_frame in Hno. rewrite orb_false_r in Hno. rewrite Hno.
    unfold source_absent in Hno. unfold poll, absent_frame. simpl.
    destruct (canvasRef w) as [r|]; [|done].
    unfold DrawingCanvas.getFrame. by destruct (dc_canvasRef r).
  - (* the camera *)
    unfold source_absent, absent_frame. unfold poll.
    destruct (cameraRef w) as [r|] eqn:Hcam; [|done].
    destruct r as [[v|] [c|]]; try done.
    unfold unavailable. simpl.
    destruct (context2d c) eqn:Hctx; simpl.
    + exists {| videoRef := Some v; ct_canvasRef := Some c |}, v,
        {| width := videoWidth v;
           height := if bool_decide (width c = videoWidth v)
                     then height c else videoHeight v;
           context2d := true |}.
      rewrite (getFrame_mounted v c Hctx). simpl.
      split; [done|]. split; [done|]. split; [done|].
      split; [reflexivity|]. split.
      { intros Hwidth. unfold has_pixels. simpl. by rewrite Hwidth. }
      split; [done|]. split; [apply payload_not_null|].
      destruct (has_pixels _) eqn:Hpixels.
      * destruct (Hfull _ "image/jpeg" (1 # 2) Hpixels) as (data & Hdata & Htruthy).
        exists data. rewrite Hdata. split; [done|]. split; [done|].
        by rewrite Htruthy.
      * rewrite Hempty; [done|].
        unfold has_pixels in Hpixels. apply andb_false_iff in Hpixels.
        destruct Hpixels as [Hw|Hh]; [left | right];
          apply negb_false_iff, N.eqb_eq in Hw || apply negb_false_iff, N.eqb_eq in Hh;
          done.
    + unfold CameraTracker.getFrame. simpl.
      case_bool_decide; simpl; by rewrite Hctx.
Qed.
End Sampling.

Lemma html_toDataURL_pixels : encodes_pixels html_toDataURL.
Proof.
  intros c mime q Hpixels. unfold html_toDataURL.
  rewrite bool_decide_eq_false_2.
  - by exists "/9j/4AAQSkZJRg==".
  - unfold has_pixels in Hpixels. apply andb_true_iff in Hpixels as [Hw Hh].
    apply negb_true_iff, N.eqb_neq in Hw. apply negb_true_iff, N.eqb_neq in Hh.
    by intros [?|?].
Qed.

(** A tick of the live session in sketchbook mode before the camera
    delivers. *)
Lemma sampler_without_frame_witness :
  encodes_no_pixels html_toDataURL
  ∧ encodes_pixels html_toDataURL
  ∧ source_without_frame physical sketchbook_session = true
  ∧ frameIntervalRef (tick html_toDataURL physical sketchbook_session) = Some 1%positive.
Proof.
  split; [exact html_toDataURL_no_pixels|]. split; [exact html_toDataURL_pixels|].
  split; [reflexivity|].
  exact (proj1 (sampler_without_frame html_toDataURL physical sketchbook_session
                  html_toDataURL_no_pixels html_toDataURL_pixels eq_refl)).
Defined.

(** The two ways of a camera that is not ready, on the live session: with
    no dimensions the frame is the empty string and nothing is sent; with
    dimensions and no frame yet, the encoded canvas is sent. *)
Example camera_not_ready_ticks :
  since sketchbook_session (tick html_toDataURL physical sketchbook_session) = []
  ∧ no_current_frame camera_metadata_only = true
  ∧ since (set_cameraRef (Some camera_metadata_only) sketchbook_session)
      (tick html_toDataURL physical
         (set_cameraRef (Some camera_metadata_only) sketchbook_session))
    = [SendRealtimeInput 1%positive (Jpeg "/9j/4AAQSkZJRg==")].
Proof. repeat split; vm_compute; reflexivity. Qed.

(** C9 as stated fails: a mounted camera whose video is not ready has no
    current frame, yet [getFrame] does not return null. *)
Lemma camera_not_ready_frame_not_null :
  no_current_frame camera_not_ready = true
  ∧ (CameraTracker.getFrame html_toDataURL camera_not_ready).1 ≠ JsNull.
Proof. split; [reflexivity | vm_compute; discriminate]. Qed.

(** ** The cursor across sessions *)


Section Restart.
Variable decodeAudioData : string → AudioBuffer.


End Restart.

(** The restarted session plays its first buffer at time 9, the end of
    the audio queued in the session before, although the clock reads 6. *)
Example restart_starts_at_nine :
  (nextStartTimeRef three_queued == 9)%Q
  ∧ currentTime (at_time 6) = 6%Q.
Proof. split; [vm_compute|]; reflexivity. Qed.


(** * Further properties of the code *)

(** ** Playback without overlap *)

Section Spacing.
Variable decodeAudioData : string → AudioBuffer.

Lemma run_spaced (evs : list (Clock * Message)) (w : World) :
  Forall (λ e, flagged e.2 = false) evs →
  ∃ l, trace (run decodeAudioData evs w) = trace w ++ l
       ∧ spaced (nextStartTimeRef w) (schedule l)
       ∧ Forall2 (λ t p, (t <= p.1)%Q) (arrivals decodeAudioData evs) (schedule l).
Proof.
  revert w. induction evs as [|[c m] evs IH]; intros w Hflags.
  - exists []. rewrite app_nil_r. repeat split. constructor.
  - apply Forall_cons in Hflags as [Hflag Hflags]. simpl in Hflag.
    destruct (onmessage_unflagged decodeAudioData c m w Hflag) as [Htrace Hcursor].
    destruct (IH (onmessage decodeAudioData c m w) Hflags) as (l & Hl & Hspaced & Harr).
    eexists. split; [|split].
    + simpl. rewrite Hl, Htrace, <- app_assoc. reflexivity.
    + rewrite schedule_app. rewrite Hcursor in Hspaced.
      destruct (audio_of decodeAudioData m) as [b|]; simpl; [|done].
      split; [apply Q.le_max_l | done].
    + rewrite schedule_app. unfold arrivals. simpl.
      destruct (audio_of decodeAudioData m) as [b|]; simpl; [|done].
      constructor; [apply Q.le_max_r | done].
Qed.

(** X1.  Whatever the pace of arrival, as long as no interruption
    intervenes: no buffer is scheduled before the cursor it found, none
    before the buffer ahead of it has played to its end, and none before
    the clock reading at which it arrived. *)
Theorem playback_never_overlaps (evs : list (Clock * Message)) (w : World) :
  Forall (λ e, flagged e.2 = false) evs →
  spaced (nextStartTimeRef w) (schedule (since w (run decodeAudioData evs w)))
  ∧ Forall2 (λ t p, (t <= p.1)%Q) (arrivals decodeAudioData evs)
      (schedule (since w (run decodeAudioData evs w))).
Proof.
  intros Hflags. destruct (run_spaced evs w Hflags) as (l & Hl & Hspaced & Harr).
  by rewrite (since_app _ _ _ Hl).
Qed.
End Spacing.

(** Buffers of 1 s, 2 s and 0.5 s arriving at clock 5, 5.5 and 9: the
    third comes after the queue has drained. *)
Lemma playback_never_overlaps_witness :
  let evs := [(at_time 5, audio_message "ab"); (at_time (11 # 2), audio_message "abcd");
              (at_time 9, audio_message "a")] in
  Forall (λ e, flagged e.2 = false) evs
  ∧ spaced (nextStartTimeRef live_session)
      (schedule (since live_session (run sample_decode evs live_session))).
Proof.
  intros evs.
  assert (Hflags : Forall (λ e, flagged e.2 = false) evs) by (repeat constructor).
  split; [exact Hflags|].
  exact (proj1 (playback_never_overlaps sample_decode evs live_session Hflags)).
Defined.

(** ** Bookkeeping of playback sources *)

Lemma started_app (a b : list Call) : started (a ++ b) = started a ++ started b.
Proof. apply omap_app. Qed.

Lemma stopped_app (a b : list Call) : stopped (a ++ b) = stopped a ++ stopped b.
Proof. apply omap_app. Qed.

Lemma started_stops (l : list Node) : started (SourceStop <$> l) = [].
Proof. induction l; done. Qed.

Lemma stopped_stops (l : list Node) : stopped (SourceStop <$> l) = l.
Proof. induction l as [|n l IH]; [done|]. simpl. f_equal. exact IH. Qed.

(** A handler that starts and stops nothing and leaves the live set
    alone keeps the bookkeeping sound. *)
Lemma nodes_ok_quiet (w w' : World) :
  started (trace w') = started (trace w) →
  stopped (trace w') = stopped (trace w) →
  sourcesRef w' = sourcesRef w →
  nextNode w' = nextNode w →
  nodes_ok w → nodes_ok w'.
Proof.
  unfold nodes_ok. by intros -> -> -> ->.
Qed.

(** So does one that stops exactly the tracked sources and empties the
    live set. *)
Lemma nodes_ok_stop_all (w w' : World) :
  started (trace w') = started (trace w) →
  stopped (trace w') = stopped (trace w) ++ sourcesRef w →
  sourcesRef w' = [] →
  nextNode w' = nextNode w →
  nodes_ok w → nodes_ok w'.
Proof.
  unfold nodes_ok. intros -> -> -> ->. by rewrite app_nil_r.
Qed.

Lemma nodes_ok_enqueue (now : Q) (b : AudioBuffer) (w : World) :
  nodes_ok w → nodes_ok (enqueue now b w).
Proof.
  intros (Hstarted & Hlive & Hsub & Hfresh).
  assert (Hnew : nextNode w ∉ started (trace w)).
  { intros Hin. apply Hfresh in Hin. lia. }
  assert (Hnew' : nextNode w ∉ stopped (trace w) ++ sourcesRef w).
  { intros Hin. by apply Hnew, Hsub. }
  assert (Hadd : set_add (nextNode w) (sourcesRef w) = sourcesRef w ++ [nextNode w]).
  { unfold set_add. rewrite bool_decide_eq_false_2; [done|].
    intros Hin. apply Hnew', elem_of_app. by right. }
  unfold nodes_ok, enqueue, emit, emits. simpl.
  rewrite Hadd, started_app, stopped_app, app_nil_r. simpl.
  split; [|split; [|split]].
  - apply NoDup_app. split; [done|]. split; [|apply NoDup_singleton].
    intros n Hn Hn'. apply list_elem_of_singleton in Hn'. by subst.
  - rewrite app_assoc. apply NoDup_app. split; [done|]. split; [|apply NoDup_singleton].
    intros n Hn Hn'. apply list_elem_of_singleton in Hn'. by subst.
  - intros n Hn. rewrite app_assoc in Hn. apply elem_of_app in Hn as [Hn|Hn].
    + apply elem_of_app. left. by apply Hsub.
    + apply elem_of_app. by right.
  - intros n Hn. apply elem_of_app in Hn as [Hn|Hn].
    + apply Hfresh in Hn. lia.
    + apply list_elem_of_singleton in Hn. subst. lia.
Qed.

Lemma nodes_ok_onended (n : Node) (w : World) :
  nodes_ok w → nodes_ok (onended n w).
Proof.
  intros (Hstarted & Hlive & Hsub & Hfresh).
  unfold nodes_ok, onended, set_delete. simpl.
  split; [done|]. split; [|split; [|done]].
  - apply NoDup_app in Hlive as (Hstop & Hdisj & Hsrc).
    apply NoDup_app. split; [done|]. split; [|by apply NoDup_filter].
    intros k Hk Hk'. apply list_elem_of_filter in Hk' as [_ Hk'].
    by apply (Hdisj k).
  - intros k Hk. apply Hsub. apply elem_of_app in Hk as [Hk|Hk].
    + apply elem_of_app. by left.
    + apply list_elem_of_filter in Hk as [_ Hk]. apply elem_of_app. by right.
Qed.

Lemma nodes_ok_interruptAll (w : World) : nodes_ok w → nodes_ok (interruptAll w).
Proof.
  apply nodes_ok_stop_all; unfold interruptAll, emits; simpl;
    rewrite ?started_app, ?stopped_app, ?started_stops, ?stopped_stops, ?app_nil_r;
    reflexivity.
Qed.

Lemma nodes_ok_stopSession (w : World) : nodes_ok w → nodes_ok (stopSession w).
Proof.
  destruct (stopSession_refs w) as (_ & _ & Hsources & _).
  destruct (stopSession_frame w) as (_ & _ & Hnext).
  apply nodes_ok_stop_all; [| |done|done]; rewrite stopSession_trace;
    rewrite ?started_app, ?stopped_app, ?started_stops, ?stopped_stops;
    destruct (sessionRef w), (frameIntervalRef w); simpl; by rewrite ?app_nil_r.
Qed.

Lemma nodes_ok_emit (c : Call) (w : World) :
  started [c] = [] → stopped [c] = [] → nodes_ok w → nodes_ok (emit c w).
Proof.
  intros Hstart Hstop. apply nodes_ok_quiet; unfold emit, emits; simpl;
    rewrite ?started_app, ?stopped_app, ?Hstart, ?Hstop, ?app_nil_r; reflexivity.
Qed.

Section Bookkeeping.
Variable decodeAudioData : string → AudioBuffer.
Variable toDataURL : Canvas → string → Q → string.

Lemma nodes_ok_deliver (c : Clock) (m : Message) (w : World) :
  nodes_ok w → nodes_ok (deliver decodeAudioData c m w).
Proof.
  intros Hok. unfold deliver.
  assert (Hadd : ∀ now t o w0, nodes_ok w0 → nodes_ok (addTranscription now t o w0))
    by (intros; by apply (nodes_ok_quiet w0)).
  destruct (serverContent m ≫= inputTranscription),
           (serverContent m ≫= outputTranscription),
           (audioData m) as [d|];
    try destruct (truthy_string d); auto using nodes_ok_enqueue.
Qed.

Lemma nodes_ok_tick (mode : TrackingMode) (w : World) :
  nodes_ok w → nodes_ok (tick toDataURL mode w).
Proof.
  intros Hok. unfold tick.
  assert (Hpoll : nodes_ok (poll toDataURL mode w).2).
  { revert Hok. apply nodes_ok_quiet; unfold poll; destruct mode; try done;
      destruct (cameraRef w) as [r|]; try done;
      by destruct (CameraTracker.getFrame toDataURL r). }
  destruct (poll toDataURL mode w) as [f w']. simpl in Hpoll.
  destruct f as [| |data]; try done.
  destruct (truthy_string data), (sessionRef w'); try done.
  by apply nodes_ok_emit.
Qed.

Lemma nodes_ok_step (e : Event) (w : World) :
  nodes_ok w → nodes_ok (step decodeAudioData toDataURL e w).
Proof.
  intros Hok. destruct e; simpl.
  - unfold click_session. destruct (isConnecting w); [done|].
    destruct (isActive w); [by apply nodes_ok_stopSession|].
    revert Hok. apply nodes_ok_quiet; unfold startSession_begin; simpl;
      destruct (audioContextRef w); simpl;
      rewrite ?started_app, ?stopped_app, ?app_nil_r; reflexivity.
  - unfold click_mode. destruct (isActive w).
    + by apply (nodes_ok_quiet (stopSession w)), nodes_ok_stopSession.
    + by apply (nodes_ok_quiet w).
  - revert Hok. apply nodes_ok_quiet; unfold startSession_begin; simpl;
      destruct (audioContextRef w); simpl;
      rewrite ?started_app, ?stopped_app, ?app_nil_r; reflexivity.
  - revert Hok. apply nodes_ok_quiet; unfold startSession_media, startSession_catch;
      destruct r; simpl; rewrite ?started_app, ?stopped_app, ?app_nil_r; reflexivity.
  - revert Hok. apply nodes_ok_quiet; unfold onopen; simpl;
      rewrite ?started_app, ?stopped_app, ?app_nil_r; reflexivity.
  - revert Hok. apply nodes_ok_quiet; unfold startSession_resolved, startSession_catch;
      destruct r; simpl; rewrite ?started_app, ?stopped_app, ?app_nil_r; reflexivity.
  - by apply nodes_ok_stopSession.
  - rewrite onmessage_split. destruct (flagged m).
    + by apply nodes_ok_interruptAll, nodes_ok_deliver.
    + by apply nodes_ok_deliver.
  - unfold onerror. by apply nodes_ok_stopSession, nodes_ok_emit.
  - by apply nodes_ok_stopSession.
  - by apply nodes_ok_tick.
  - unfold onaudioprocess. destruct (sessionRef w); [by apply nodes_ok_emit | done].
  - by apply nodes_ok_onended.
Qed.

Lemma nodes_ok_steps (evs : list Event) (w : World) :
  nodes_ok w → nodes_ok (steps decodeAudioData toDataURL evs w).
Proof.
  revert w. induction evs as [|e evs IH]; intros w Hok; [done|].
  simpl. by apply IH, nodes_ok_step.
Qed.

(** X2.  In every run of the component from its first render, whatever
    the order of events: a playback source is started at most once;
    [stop()] is called only on a source that was started, and on each at
    most once; and the live set holds, without repetition, sources that
    were started and have not been stopped. *)
Theorem source_bookkeeping (evs : list Event) :
  NoDup (started (trace (steps decodeAudioData toDataURL evs initial)))
  ∧ NoDup (stopped (trace (steps decodeAudioData toDataURL evs initial)))
  ∧ stopped (trace (steps decodeAudioData toDataURL evs initial))
    ⊆ started (trace (steps decodeAudioData toDataURL evs initial))
  ∧ NoDup (sourcesRef (steps decodeAudioData toDataURL evs initial))
  ∧ (∀ n, n ∈ sourcesRef (steps decodeAudioData toDataURL evs initial) →
          n ∈ started (trace (steps decodeAudioData toDataURL evs initial))
          ∧ n ∉ stopped (trace (steps decodeAudioData toDataURL evs initial))).
Proof.
  assert (Hinit : nodes_ok initial).
  { unfold nodes_ok. simpl. repeat split; try apply NoDup_nil_2;
      intros n Hn; by apply elem_of_nil in Hn. }
  destruct (nodes_ok_steps evs initial Hinit) as (Hstarted & Hlive & Hsub & _).
  apply NoDup_app in Hlive as (Hstop & Hdisj & Hsrc).
  split; [done|]. split; [done|]. split; [|split; [done|]].
  - intros n Hn. apply Hsub, elem_of_app. by left.
  - intros n Hn. split.
    + apply Hsub, elem_of_app. by right.
    + intros Hn'. by apply (Hdisj n).
Qed.
End Bookkeeping.

(** ** The transcript over whole runs *)

(** Unfolds the handlers other than [onmessage] and splits on what they
    test. *)
Ltac unfold_handlers :=
  unfold click_session, click_mode, startSession_begin, startSession_media,
    startSession_catch, startSession_resolved, onopen, onerror, onclose, stopSession,
    onaudioprocess, onended, tick, poll, emit, emits;
  repeat (simpl; case_match); simplify_eq/=.

Lemma addTranscription_length (now : Z) (t : string) (o : Origin) (w : World) :
  (length (transcriptions (addTranscription now t o w)) ≤ 15)%nat.
Proof.
  unfold addTranscription, slice_last. simpl. rewrite length_drop. lia.
Qed.

Section Transcript.
Variable decodeAudioData : string → AudioBuffer.
Variable toDataURL : Canvas → string → Q → string.

(** X3.  Only a message of the remote service changes the transcript:
    clicks, starting, stopping, errors, closing, sampling ticks, microphone
    blocks and ended sources leave it as it is, so the log of one session
    is still shown in the next. *)
Theorem transcript_changed_by_messages_only (e : Event) (w : World) :
  is_message e = false →
  transcriptions (step decodeAudioData toDataURL e w) = transcriptions w.
Proof.
  intros Hmsg. destruct e; try discriminate Hmsg; simpl; unfold_handlers; done.
Qed.

Lemma transcript_bound_step (e : Event) (w : World) :
  (length (transcriptions w) ≤ 15)%nat →
  (length (transcriptions (step decodeAudioData toDataURL e w)) ≤ 15)%nat.
Proof.
  intros Hw. destruct (is_message e) eqn:Hmsg.
  - destruct e; try discriminate Hmsg. simpl.
    rewrite onmessage_split.
    assert (Hdeliver : (length (transcriptions (deliver decodeAudioData c m w)) ≤ 15)%nat).
    { unfold deliver.
      destruct (serverContent m ≫= inputTranscription),
               (serverContent m ≫= outputTranscription),
               (audioData m) as [d|];
        try destruct (truthy_string d); simpl;
        first [exact Hw | apply addTranscription_length
              | apply (addTranscription_length _ _ _ (addTranscription _ _ _ w))]. }
    by destruct (flagged m).
  - by rewrite transcript_changed_by_messages_only.
Qed.

(** X4.  In every run of the component the transcript holds at most 15
    entries. *)
Theorem transcript_bounded (evs : list Event) :
  (length (transcriptions (steps decodeAudioData toDataURL evs initial)) ≤ 15)%nat.
Proof.
  assert (Hgen : ∀ w, (length (transcriptions w) ≤ 15)%nat →
            (length (transcriptions (steps decodeAudioData toDataURL evs w)) ≤ 15)%nat).
  { induction evs as [|e evs IH]; intros w Hw; [done|].
    simpl. by apply IH, transcript_bound_step. }
  apply Hgen. simpl. lia.
Qed.
End Transcript.

(** Stopping the session with three buffers queued. *)
Lemma transcript_changed_by_messages_only_witness :
  is_message EStopSession = false
  ∧ transcriptions (step sample_decode html_toDataURL EStopSession three_queued)
    = transcriptions three_queued.
Proof.
  split; [reflexivity|].
  exact (transcript_changed_by_messages_only sample_decode html_toDataURL
           EStopSession three_queued eq_refl).
Defined.

(** ** Audio contexts, the microphone and the uplink over whole runs *)

Lemma omap_fmap_none {A B C} (f : B → option C) (g : A → B) (l : list A) :
  (∀ a, f (g a) = None) → omap f (g <$> l) = [].
Proof.
  intros Hnone. induction l as [|a l IH]; [done|].
  simpl. rewrite Hnone. exact IH.
Qed.

(** Brings a projection of a trace, built with [omap], to the calls a
    handler appended. *)
Ltac project_trace :=
  rewrite ?omap_app; simpl;
  rewrite ?(omap_fmap_none _ SourceStop) by done;
  rewrite ?app_nil_r.

Section Resources.
Variable decodeAudioData : string → AudioBuffer.
Variable toDataURL : Canvas → string → Q → string.

Lemma onmessage_keeps (c : Clock) (m : Message) (w : World) :
  audioContextRef (onmessage decodeAudioData c m w) = audioContextRef w
  ∧ sessionRef (onmessage decodeAudioData c m w) = sessionRef w
  ∧ frameIntervalRef (onmessage decodeAudioData c m w) = frameIntervalRef w
  ∧ isActive (onmessage decodeAudioData c m w) = isActive w
  ∧ isConnecting (onmessage decodeAudioData c m w) = isConnecting w.
Proof.
  rewrite onmessage_split. unfold deliver.
  destruct (flagged m), (serverContent m ≫= inputTranscription),
           (serverContent m ≫= outputTranscription),
           (audioData m) as [d|];
    try destruct (truthy_string d); done.
Qed.

Lemma contexts_step (e : Event) (w : World) :
  contexts (trace w) = (if audioContextRef w then [16000; 24000] else [])%positive →
  contexts (trace (step decodeAudioData toDataURL e w))
  = (if audioContextRef (step decodeAudioData toDataURL e w)
     then [16000; 24000] else [])%positive.
Proof.
  intros Hw. destruct (is_message e) eqn:Hmsg.
  - destruct e; try discriminate Hmsg. simpl.
    destruct (onmessage_keeps c m w) as (-> & _).
    rewrite onmessage_trace. unfold contexts in *.
    destruct (audio_of decodeAudioData m), (flagged m); project_trace; exact Hw.
  - destruct e; try discriminate Hmsg; simpl; unfold_handlers;
      unfold contexts in *; project_trace;
      repeat match goal with H : audioContextRef _ = _ |- _ => rewrite H in * end;
      try rewrite Hw; done.
Qed.

(** X5.  In every run the pair of audio contexts is created at most
    once, the 16 kHz input context before the 24 kHz output context, and
    is there exactly when [audioContextRef] is set: later sessions reuse
    it. *)
Theorem audio_contexts_created_once (evs : list Event) :
  contexts (trace (steps decodeAudioData toDataURL evs initial))
  = (if audioContextRef (steps decodeAudioData toDataURL evs initial)
     then [16000; 24000] else [])%positive.
Proof.
  assert (Hgen : ∀ w,
    contexts (trace w) = (if audioContextRef w then [16000; 24000] else [])%positive →
    contexts (trace (steps decodeAudioData toDataURL evs w))
    = (if audioContextRef (steps decodeAudioData toDataURL evs w)
       then [16000; 24000] else [])%positive).
  { induction evs as [|e evs IH]; intros w Hw; [done|].
    simpl. by apply IH, contexts_step. }
  by apply Hgen.
Qed.

Lemma released_step (e : Event) (w : World) :
  released (trace (step decodeAudioData toDataURL e w)) = released (trace w).
Proof.
  destruct (is_message e) eqn:Hmsg.
  - destruct e; try discriminate Hmsg. simpl.
    rewrite onmessage_trace. unfold released.
    destruct (audio_of decodeAudioData m), (flagged m); by project_trace.
  - destruct e; try discriminate Hmsg; simpl; unfold_handlers;
      unfold released; by project_trace.
Qed.

(** X6.  No handler of the component ever stops the tracks of a media
    stream: in every run the trace has no track stop, so a microphone
    stream that was granted is still held at the end. *)
Theorem microphone_never_released (evs : list Event) (s : Stream) :
  released (trace (steps decodeAudioData toDataURL evs initial)) = []
  ∧ mic_held s (trace (steps decodeAudioData toDataURL evs initial))
    = bool_decide (GetUserMedia (Some s)
                     ∈ trace (steps decodeAudioData toDataURL evs initial)).
Proof.
  assert (Hgen : ∀ w, released (trace (steps decodeAudioData toDataURL evs w))
                      = released (trace w)).
  { induction evs as [|e evs IH]; intros w; [done|].
    simpl. by rewrite IH, released_step. }
  assert (Hnone : released (trace (steps decodeAudioData toDataURL evs initial)) = [])
    by (by rewrite Hgen).
  split; [exact Hnone|].
  unfold mic_held. rewrite (bool_decide_eq_false_2 (TrackStop s ∈ _)).
  - by rewrite andb_true_r.
  - intros Hin.
    assert (Hs : s ∈ released (trace (steps decodeAudioData toDataURL evs initial))).
    { apply list_elem_of_omap. by exists (TrackStop s). }
    rewrite Hnone in Hs. by apply elem_of_nil in Hs.
Qed.
End Resources.

(** Brings [since w w'] to the calls appended to the trace of [w]. *)
Ltac since_calls :=
  unfold since; simpl; rewrite <- ?app_assoc; rewrite ?drop_app_length, ?drop_all.

Section Uplink.
Variable decodeAudioData : string → AudioBuffer.
Variable toDataURL : Canvas → string → Q → string.

(** What one event sends to the remote service. *)
Lemma step_sent (e : Event) (w : World) :
  sent (since w (step decodeAudioData toDataURL e w))
  = match e with
    | ETick mode =>
        match (poll toDataURL mode w).1, sessionRef w with
        | JsString data, Some h =>
            if truthy_string data then [(h, Jpeg data)] else []
        | _, _ => []
        end
    | EAudioProcess pcm =>
        match sessionRef w with
        | Some h => [(h, Pcm pcm)]
        | None => []
        end
    | _ => []
    end.
Proof.
  destruct (is_message e) eqn:Hmsg.
  - destruct e; try discriminate Hmsg. simpl.
    rewrite (since_app _ _ _ (onmessage_trace decodeAudioData c m w)). unfold sent.
    destruct (audio_of decodeAudioData m), (flagged m); by project_trace.
  - destruct e; try discriminate Hmsg; simpl; unfold_handlers;
      since_calls; unfold sent; project_trace; try done.
Qed.

(** X7.  Whatever an event sends to the remote service goes to the
    session handle stored at that moment, only a sampling tick or a block
    of microphone audio sends anything, and each sends at most one
    message.  With no handle stored, nothing is sent. *)
Theorem uplink_needs_session (e : Event) (w : World) (h : Handle) (m : Media) :
  (h, m) ∈ sent (since w (step decodeAudioData toDataURL e w)) →
  sessionRef w = Some h
  ∧ is_uplink e = true
  ∧ sent (since w (step decodeAudioData toDataURL e w)) = [(h, m)].
Proof.
  rewrite step_sent. intros Hin.
  destruct e; try (by apply elem_of_nil in Hin); simpl.
  - destruct ((poll toDataURL mode w).1) as [| |data];
      try (by apply elem_of_nil in Hin).
    destruct (sessionRef w) as [h'|]; [|by apply elem_of_nil in Hin].
    destruct (truthy_string data); [|by apply elem_of_nil in Hin].
    apply list_elem_of_singleton in Hin. by simplify_eq.
  - destruct (sessionRef w) as [h'|]; [|by apply elem_of_nil in Hin].
    apply list_elem_of_singleton in Hin. by simplify_eq.
Qed.

(** X8.  After [stopSession] nothing more is sent: a block of microphone
    audio from the pump that keeps running changes nothing at all, and a
    sampling tick adds no call to the trace. *)
Theorem silent_after_teardown (pcm : string) (mode : TrackingMode) (w : World) :
  onaudioprocess pcm (stopSession w) = stopSession w
  ∧ trace (tick toDataURL mode (stopSession w)) = trace (stopSession w).
Proof.
  destruct (stopSession_refs w) as (Hsession & _).
  split.
  - unfold onaudioprocess. by rewrite Hsession.
  - destruct (poll_frame toDataURL mode (stopSession w)) as (Htrace & _ & Hsess & _).
    unfold tick. destruct (poll toDataURL mode (stopSession w)) as [f w'].
    simpl in *. rewrite Hsession in Hsess.
    destruct f as [| |data]; try done.
    destruct (truthy_string data); [|done]. by rewrite Hsess.
Qed.
End Uplink.

(** A block of microphone audio on the live session. *)
Lemma uplink_needs_session_witness :
  (1%positive, Pcm "pcm")
    ∈ sent (since live_session
              (step sample_decode html_toDataURL (EAudioProcess "pcm") live_session))
  ∧ sessionRef live_session = Some 1%positive.
Proof.
  assert (Hin : (1%positive, Pcm "pcm")
                  ∈ sent (since live_session
                      (step sample_decode html_toDataURL (EAudioProcess "pcm") live_session)))
    by (vm_compute; apply list_elem_of_singleton; reflexivity).
  split; [exact Hin|].
  exact (proj1 (uplink_needs_session sample_decode html_toDataURL _ _ _ _ Hin)).
Defined.

(** ** Starting and stopping, composed *)

Lemma startSession_opened (s : Stream) (h : Handle) (t : TimerId) (w : World) :
  sessionRef (startSession (Some s) h (Opened t) w) = Some h
  ∧ frameIntervalRef (startSession (Some s) h (Opened t) w) = Some t
  ∧ sourcesRef (startSession (Some s) h (Opened t) w) = sourcesRef w
  ∧ isActive (startSession (Some s) h (Opened t) w) = true
  ∧ isConnecting (startSession (Some s) h (Opened t) w) = false.
Proof.
  unfold startSession, startSession_begin. simpl. by destruct (audioContextRef w).
Qed.

(** X9.  A start that succeeds makes the session Active with the new
    handle and timer stored; stopping it then closes that very channel and
    clears that very timer, stops the sources that were tracked, and ends
    Idle.  Between the two, nothing else is called than the creation of
    the audio contexts (when they are not there yet), [getUserMedia],
    [connect], the microphone pump and [setInterval]. *)
Theorem start_then_stop (s : Stream) (h : Handle) (t : TimerId) (w : World) :
  phase (startSession (Some s) h (Opened t) w) = Active
  ∧ sessionRef (startSession (Some s) h (Opened t) w) = Some h
  ∧ frameIntervalRef (startSession (Some s) h (Opened t) w) = Some t
  ∧ since w (stopSession (startSession (Some s) h (Opened t) w))
    = (if audioContextRef w then [] else [NewAudioContext 16000; NewAudioContext 24000])
      ++ [GetUserMedia (Some s); LiveConnect h; MicPump s; SetInterval t;
          SessionClose h; ClearInterval t]
      ++ (SourceStop <$> sourcesRef w)
  ∧ phase (stopSession (startSession (Some s) h (Opened t) w)) = Idle.
Proof.
  destruct (startSession_opened s h t w) as (Hsession & Htimer & Hsources & Hact & Hconn).
  split; [unfold phase; by rewrite Hconn, Hact|].
  split; [done|]. split; [done|]. split.
  - apply since_app. rewrite stopSession_trace, startSession_trace.
    rewrite Hsession, Htimer, Hsources. by rewrite <- !app_assoc.
  - destruct (stopSession_refs (startSession (Some s) h (Opened t) w))
      as (_ & _ & _ & Hstopped).
    destruct (stopSession_frame (startSession (Some s) h (Opened t) w))
      as (_ & Hconn' & _).
    unfold phase. by rewrite Hconn', Hconn, Hstopped.
Qed.

(** X10.  When the microphone is granted but [connect] rejects, a start
    from Idle ends Idle: the error is logged, no handle and no timer are
    stored, [onopen] never ran, and nothing is torn down, so the stream
    that was granted is neither used nor released. *)
Theorem connect_rejected (s : Stream) (h : Handle) (w : World) :
  phase w = Idle →
  phase (startSession (Some s) h Rejected w) = Idle
  ∧ sessionRef (startSession (Some s) h Rejected w) = sessionRef w
  ∧ frameIntervalRef (startSession (Some s) h Rejected w) = frameIntervalRef w
  ∧ since w (startSession (Some s) h Rejected w)
    = (if audioContextRef w then [] else [NewAudioContext 16000; NewAudioContext 24000])
      ++ [GetUserMedia (Some s); LiveConnect h; ConsoleError "Failed to start session:"].
Proof.
  intros Hidle. unfold phase in Hidle.
  destruct (isConnecting w) eqn:Hconn; [discriminate|].
  destruct (isActive w) eqn:Hactive; [discriminate|].
  split; [|split; [|split]].
  - unfold startSession, startSession_begin, phase. simpl.
    destruct (audioContextRef w); simpl; by rewrite Hactive.
  - unfold startSession, startSession_begin. simpl. by destruct (audioContextRef w).
  - unfold startSession, startSession_begin. simpl. by destruct (audioContextRef w).
  - apply since_app. rewrite startSession_trace. reflexivity.
Qed.

(** The first start of the component, the channel refused. *)
Lemma connect_rejected_witness :
  phase initial = Idle
  ∧ phase (startSession (Some 1%positive) 1%positive Rejected initial) = Idle
  ∧ sessionRef (startSession (Some 1%positive) 1%positive Rejected initial) = None.
Proof.
  split; [reflexivity|].
  destruct (connect_rejected 1%positive 1%positive initial eq_refl)
    as (Hidle & Hsession & _).
  split; [exact Hidle | exact Hsession].
Defined.

Lemma onended_empty (n : Node) (w : World) : sourcesRef w = [] → onended n w = w.
Proof.
  intros Hempty. destruct w as [a c tm ts cv cam se ac so nx fr nn tr].
  simpl in Hempty. subst. reflexivity.
Qed.

(** X11.  The [ended] event a source fires after [stop()] finds the live
    set already empty: handled after [stopSession] or after an
    interruption, it changes nothing. *)
Theorem ended_after_stop (n : Node) (w : World) :
  onended n (stopSession w) = stopSession w
  ∧ onended n (interruptAll w) = interruptAll w.
Proof.
  split; apply onended_empty; [apply stopSession_refs | reflexivity].
Qed.

(** ** Frames *)

Lemma split_comma_plain (s : string) : no_comma s = true → split_comma s = [s].
Proof.
  induction s as [|c r IH]; [done|]. simpl. intros Hno.
  apply andb_true_iff in Hno as [Hc Hr]. apply negb_true_iff in Hc.
  by rewrite Hc, (IH Hr).
Qed.

Lemma split_comma_header (header rest : string) :
  no_comma header = true →
  split_comma (header +:+ "," +:+ rest) = header :: split_comma rest.
Proof.
  induction header as [|c r IH]; [done|]. simpl. intros Hno.
  apply andb_true_iff in Hno as [Hc Hr]. apply negb_true_iff in Hc.
  by rewrite Hc, (IH Hr).
Qed.

(** X12.  [url.split(',')[1]] on a data URL: when neither the header
    nor the data has a comma, what [getFrame] returns for the URL
    [header,data] is exactly [data]; and a URL without any comma yields
    [undefined]. *)
Theorem payload_of_data_url (header data : string) :
  no_comma header = true →
  no_comma data = true →
  payload (header +:+ "," +:+ data) = JsString data
  ∧ payload header = JsUndefined.
Proof.
  intros Hheader Hdata. unfold payload.
  by rewrite (split_comma_header _ _ Hheader), !split_comma_plain.
Qed.

Lemma payload_of_data_url_witness :
  no_comma "data:image/jpeg;base64" = true
  ∧ no_comma "/9j/4AAQSkZJRg==" = true
  ∧ payload "data:image/jpeg;base64,/9j/4AAQSkZJRg==" = JsString "/9j/4AAQSkZJRg==".
Proof.
  split; [reflexivity|]. split; [reflexivity|].
  exact (proj1 (payload_of_data_url "data:image/jpeg;base64" "/9j/4AAQSkZJRg=="
                  eq_refl eq_refl)).
Defined.

Section Frames.
Variable toDataURL : Canvas → string → Q → string.

(** X13.  For every encoder, [getFrame] of the camera returns null
    exactly when the video or canvas element is absent or no 2D context is
    to be had, and [getFrame] of the drawing canvas exactly when its canvas
    element is absent. *)
Theorem getFrame_null_iff (r : CameraTrackerRef) (d : DrawingCanvasRef) :
  ((CameraTracker.getFrame toDataURL r).1 = JsNull ↔ unavailable r = true)
  ∧ (DrawingCanvas.getFrame toDataURL d = JsNull ↔ dc_canvasRef d = None).
Proof.
  split.
  - unfold CameraTracker.getFrame, unavailable.
    destruct (videoRef r) as [v|], (ct_canvasRef r) as [c|]; simpl; try done.
    case_bool_decide; simpl; destruct (context2d c); simpl; split; try done;
      intros Hnull; by apply payload_not_null in Hnull.
  - unfold DrawingCanvas.getFrame. destruct (dc_canvasRef d) as [c|]; split; try done.
    intros Hnull. by apply payload_not_null in Hnull.
Qed.

(** X14.  With video and canvas mounted, [getFrame] leaves the canvas as
    wide as the video; the canvas height follows the video only when the
    width had to change, so a video whose height alone changed leaves the
    old canvas height in place.  Asking again at once resizes nothing and
    returns the same frame. *)
Theorem getFrame_syncs_canvas (r : CameraTrackerRef) (v : Video) (c : Canvas) :
  videoRef r = Some v →
  ct_canvasRef r = Some c →
  (CameraTracker.getFrame toDataURL r).2
  = {| videoRef := Some v;
       ct_canvasRef :=
         Some {| width := videoWidth v;
                 height := if bool_decide (width c = videoWidth v)
                           then height c else videoHeight v;
                 context2d := context2d c |} |}
  ∧ CameraTracker.getFrame toDataURL (CameraTracker.getFrame toDataURL r).2
    = CameraTracker.getFrame toDataURL r.
Proof.
  intros Hv Hc. destruct r as [rv rc]. simpl in Hv, Hc. subst.
  unfold CameraTracker.getFrame. simpl.
  destruct c as [cw ch ctx]. simpl.
  destruct (decide (cw = videoWidth v)) as [->|Hne].
  - rewrite (bool_decide_eq_false_2 (videoWidth v ≠ videoWidth v)) by (intros H; by apply H).
    rewrite bool_decide_eq_true_2 by done.
    destruct ctx; simpl;
      rewrite (bool_decide_eq_false_2 (videoWidth v ≠ videoWidth v)) by (intros H; by apply H);
      done.
  - rewrite (bool_decide_eq_true_2 (cw ≠ videoWidth v)) by done.
    rewrite bool_decide_eq_false_2 by done.
    destruct ctx; simpl;
      rewrite (bool_decide_eq_false_2 (videoWidth v ≠ videoWidth v)) by (intros H; by apply H);
      done.
Qed.
End Frames.

(** The camera of the sketchbook session before its first frame. *)
Lemma getFrame_syncs_canvas_witness :
  videoRef camera_not_ready
  = Some {| srcObject := None; readyState := 0; videoWidth := 0; videoHeight := 0 |}
  ∧ ct_canvasRef camera_not_ready
    = Some {| width := 300; height := 150; context2d := true |}
  ∧ ct_canvasRef (CameraTracker.getFrame html_toDataURL camera_not_ready).2
    = Some {| width := 0; height := 0; context2d := true |}.
Proof.
  split; [reflexivity|]. split; [reflexivity|].
  destruct (getFrame_syncs_canvas html_toDataURL camera_not_ready _ _ eq_refl eq_refl)
    as [Hrefs _].
  rewrite Hrefs. reflexivity.
Defined.

(** ** Strokes on the drawing canvas *)

Lemma pen_after_app (pen : bool) (a b : list DrawCall) :
  pen_after pen (a ++ b) = pen_after pen a ≫= λ pen', pen_after pen' b.
Proof.
  revert pen. induction a as [|c a IH]; intros pen; [done|].
  destruct c; simpl; try apply IH. all: destruct pen; [apply IH | done].
Qed.

Lemma draw_step_pen (e : DrawEvent) (d : Drawing) :
  pen_after false (drawn d) = Some (isDrawing d && contextRef d) →
  pen_after false (drawn (draw_step e d))
  = Some (isDrawing (draw_step e d) && contextRef (draw_step e d)).
Proof.
  intros Hpen.
  destruct e as [p|p| | |c|n]; simpl;
    unfold startDrawing, draw, stopDrawing, clear, setColor, setBrushSize,
      brush_effect, on_context;
    try destruct (getCoordinates p d) as [x y];
    destruct (isDrawing d) eqn:Hdrawing, (contextRef d) eqn:Hctx; simpl;
    rewrite ?Hctx; simpl; rewrite ?Hctx; simpl;
    repeat case_match; simpl;
    rewrite ?Hctx, ?Hdrawing; simpl;
    rewrite <- ?app_assoc, ?pen_after_app, ?Hpen; done.
Qed.

(** X15.  Whatever the user does on a fresh canvas (press, move,
    release, clear, pick a colour or a size, in any order), the context
    calls come in order: every [lineTo] and [stroke] follows a [moveTo]
    with no [closePath] in between; and the pen is down at the end exactly
    when a stroke is in progress on a canvas that has a context. *)
Theorem strokes_in_order (evs : list DrawEvent) (d : Drawing) :
  drawn d = [] →
  isDrawing d = false →
  pen_after false (drawn (draw_steps evs d))
  = Some (isDrawing (draw_steps evs d) && contextRef (draw_steps evs d)).
Proof.
  intros Hempty Hidle.
  assert (Hgen : ∀ d0,
    pen_after false (drawn d0) = Some (isDrawing d0 && contextRef d0) →
    pen_after false (drawn (draw_steps evs d0))
    = Some (isDrawing (draw_steps evs d0) && contextRef (draw_steps evs d0))).
  { induction evs as [|e evs IH]; intros d0 Hd0; [done|].
    simpl. by apply IH, draw_step_pen. }
  apply Hgen. by rewrite Hempty, Hidle.
Qed.

(** A press, two moves, a release, a clear and a stray move. *)
Lemma strokes_in_order_witness :
  drawn sample_drawing = []
  ∧ isDrawing sample_drawing = false
  ∧ pen_after false
      (drawn (draw_steps [PointerDown (Mouse 1 1); PointerMove (Mouse 2 3);
                          PointerMove (Touch 15 30); PointerUp; ClickClear;
                          PointerMove (Mouse 9 9)] sample_drawing))
    = Some false.
Proof.
  split; [reflexivity|]. split; [reflexivity|].
  exact (strokes_in_order
           [PointerDown (Mouse 1 1); PointerMove (Mouse 2 3); PointerMove (Touch 15 30);
            PointerUp; ClickClear; PointerMove (Mouse 9 9)]
           sample_drawing eq_refl eq_refl).
Defined.

Lemma draw_moves_stroke (es : list Pointer) (d : Drawing) :
  isDrawing d = true →
  contextRef d = true →
  drawn (draw_moves es d) = drawn d ++ (es ≫= segment d)
  ∧ isDrawing (draw_moves es d) = true
  ∧ contextRef (draw_moves es d) = true.
Proof.
  revert d. induction es as [|e es IH]; intros d Hdrawing Hctx.
  - simpl. by rewrite app_nil_r.
  - assert (Hstep : drawn (draw e d) = drawn d ++ segment d e
                    ∧ isDrawing (draw e d) = true ∧ contextRef (draw e d) = true
                    ∧ dr_canvasRef (draw e d) = dr_canvasRef d
                    ∧ onStroke (draw e d) = onStroke d).
    { unfold draw, segment, on_context. rewrite Hdrawing. simpl.
      destruct (getCoordinates e d) as [x y]. rewrite Hctx. simpl. rewrite Hctx. simpl.
      destruct (onStroke d) eqn:Hcb; simpl; by rewrite <- ?app_assoc. }
    destruct Hstep as (Hdrawn & Hdrawing' & Hctx' & Hcanvas & Hcb).
    destruct (IH (draw e d) Hdrawing' Hctx') as (Hrest & Hd & Hc).
    split; [|split; [exact Hd | exact Hc]].
    change (draw_moves (e :: es) d) with (draw_moves es (draw e d)).
    change ((e :: es) ≫= segment d) with (segment d e ++ (es ≫= segment d)).
    rewrite Hrest, Hdrawn, <- app_assoc. f_equal. f_equal.
    apply list_bind_ext; [|done]. intros p.
    unfold segment, getCoordinates. by rewrite Hcanvas, Hcb.
Qed.

(** X16.  On a canvas with a context, a press at [e0], moves through
    [es] and a release draw one polyline: [beginPath], [moveTo] the press
    point, then for each move a [lineTo] its point, a [stroke] and the
    [onStroke] callback if one is given, and at last [closePath]; mouse
    points are the event's offsets, touch points the client position less
    the canvas's left and top.  No stroke is in progress afterwards. *)
Theorem gesture_draws_polyline (e0 : Pointer) (es : list Pointer) (d : Drawing) :
  contextRef d = true →
  drawn (stopDrawing (draw_moves es (startDrawing e0 d)))
  = drawn d
    ++ [BeginPath; MoveTo (getCoordinates e0 d).1 (getCoordinates e0 d).2]
    ++ (es ≫= segment d)
    ++ [ClosePath]
  ∧ isDrawing (stopDrawing (draw_moves es (startDrawing e0 d))) = false.
Proof.
  intros Hctx. split; [|reflexivity].
  assert (Hstart : drawn (startDrawing e0 d)
                   = drawn d ++ [BeginPath; MoveTo (getCoordinates e0 d).1
                                              (getCoordinates e0 d).2]
                   ∧ isDrawing (startDrawing e0 d) = true
                   ∧ contextRef (startDrawing e0 d) = true
                   ∧ dr_canvasRef (startDrawing e0 d) = dr_canvasRef d
                   ∧ onStroke (startDrawing e0 d) = onStroke d).
  { unfold startDrawing, on_context. destruct (getCoordinates e0 d) as [x y].
    rewrite Hctx. simpl. rewrite Hctx. simpl. by rewrite <- app_assoc. }
  destruct Hstart as (Hdrawn & Hdrawing & Hctx' & Hcanvas & Hcb).
  destruct (draw_moves_stroke es _ Hdrawing Hctx') as (Hmoves & _ & Hctx'').
  assert (Hseg : es ≫= segment (startDrawing e0 d) = es ≫= segment d).
  { apply list_bind_ext; [|done]. intros p.
    unfold segment, getCoordinates. by rewrite Hcanvas, Hcb. }
  unfold stopDrawing, on_context. rewrite Hctx''. simpl.
  rewrite Hmoves, Hdrawn, Hseg, <- !app_assoc. reflexivity.
Qed.

(** A press and two moves on the sample canvas, the second by touch. *)
Lemma gesture_draws_polyline_witness :
  contextRef sample_drawing = true
  ∧ drawn (stopDrawing (draw_moves [Mouse 2 3; Touch 15 30]
                          (startDrawing (Mouse 1 1) sample_drawing)))
    = [BeginPath; MoveTo 1 1; LineTo 2 3; Stroke; LineTo (15 - 10) (30 - 20); Stroke;
       ClosePath].
Proof.
  split; [reflexivity|].
  destruct (gesture_draws_polyline (Mouse 1 1) [Mouse 2 3; Touch 15 30]
              sample_drawing eq_refl) as [Hdrawn _].
  rewrite Hdrawn. reflexivity.
Defined.

(** X17.  Once the pointer is released (or has left the canvas), pointer
    moves change nothing: they draw nothing and report no stroke. *)
Theorem moves_after_release (es : list Pointer) (d : Drawing) :
  draw_moves es (stopDrawing d) = stopDrawing d.
Proof.
  assert (Hgen : ∀ d0, isDrawing d0 = false → draw_moves es d0 = d0).
  { induction es as [|e es IH]; intros d0 Hd0; [done|].
    change (draw_moves (e :: es) d0) with (draw_moves es (draw e d0)).
    unfold draw. rewrite Hd0. simpl. by apply IH. }
  by apply Hgen.
Qed.

Lemma draw_step_no_context (e : DrawEvent) (d : Drawing) :
  contextRef d = false →
  contextRef (draw_step e d) = false
  ∧ filter on_canvas (drawn (draw_step e d)) = filter on_canvas (drawn d).
Proof.
  intros Hctx.
  destruct e as [p|p| | |c|n]; simpl;
    unfold startDrawing, draw, stopDrawing, clear, setColor, setBrushSize,
      brush_effect, on_context;
    try destruct (getCoordinates p d) as [x y];
    simpl; rewrite ?Hctx; simpl; rewrite ?Hctx; simpl;
    repeat case_match; simpl; rewrite ?Hctx; simpl;
    rewrite ?filter_app, ?app_nil_r; done.
Qed.

(** X18.  On a canvas for which no 2D context was obtained, no handler
    ever reaches the context: whatever the user does, only [onStroke]
    callbacks are added to what was drawn. *)
Theorem no_context_no_drawing (evs : list DrawEvent) (d : Drawing) :
  contextRef d = false →
  filter on_canvas (drawn (draw_steps evs d)) = filter on_canvas (drawn d).
Proof.
  revert d. induction evs as [|e evs IH]; intros d Hctx; [done|].
  destruct (draw_step_no_context e d Hctx) as [Hctx' Hdrawn].
  simpl. by rewrite (IH _ Hctx'), Hdrawn.
Qed.

(** A press, a move, a release and a clear without a context. *)
Lemma no_context_no_drawing_witness :
  contextRef drawing_without_context = false
  ∧ drawn (draw_steps [PointerDown (Mouse 1 1); PointerMove (Mouse 2 3); PointerUp;
                       ClickClear] drawing_without_context)
    = [OnStroke]
  ∧ filter on_canvas
      (drawn (draw_steps [PointerDown (Mouse 1 1); PointerMove (Mouse 2 3); PointerUp;
                          ClickClear] drawing_without_context))
    = [].
Proof.
  split; [reflexivity|]. split; [reflexivity|].
  exact (no_context_no_drawing
           [PointerDown (Mouse 1 1); PointerMove (Mouse 2 3); PointerUp; ClickClear]
           drawing_without_context eq_refl).
Defined.

(** ** Errors, mode switches and late audio *)

(** X19.  A channel error tears the session down exactly as a remote
    close or a user stop does: [onerror] makes the calls of [stopSession]
    after one [console.error], and leaves every field of the state as
    [stopSession] leaves it. *)
Theorem error_tears_down_like_stop (w : World) :
  since w (onerror w) = ConsoleError "Session error:" :: since w (stopSession w)
  ∧ set_trace [] (onerror w) = set_trace [] (stopSession w)
  ∧ set_trace [] (onclose w) = set_trace [] (stopSession w).
Proof.
  split; [|split; [|reflexivity]].
  - rewrite (since_app _ _ _ (stopSession_trace w)).
    apply since_app. unfold onerror. rewrite stopSession_trace. simpl.
    by rewrite <- app_assoc.
  - unfold onerror, stopSession, emit, emits.
    destruct w as [a c tm ts cv cam se ac so nx fr nn tr]. simpl.
    by destruct se, fr.
Qed.

(** X20.  Clicking a tracking-mode button while a session is active
    runs [stopSession] first, making exactly its calls, and then records
    the mode: the handle, the timer and the live set are cleared and the
    session is no longer active. *)
Theorem mode_switch_stops_session (m : TrackingMode) (w : World) :
  isActive w = true →
  trackingMode (click_mode m w) = m
  ∧ since w (click_mode m w) = since w (stopSession w)
  ∧ sessionRef (click_mode m w) = None
  ∧ frameIntervalRef (click_mode m w) = None
  ∧ sourcesRef (click_mode m w) = []
  ∧ isActive (click_mode m w) = false.
Proof.
  intros Hactive.
  destruct (click_mode_stops m w Hactive) as (Hsession & Htimer & Hsources & _).
  split; [reflexivity|]. split; [by unfold click_mode; rewrite Hactive|].
  repeat (split; [done|]).
  unfold click_mode. by rewrite Hactive.
Qed.

(** The active session with three buffers queued, switched to the
    sketchbook. *)
Lemma mode_switch_stops_session_witness :
  isActive three_queued = true
  ∧ trackingMode (click_mode physical three_queued) = physical
  ∧ sessionRef (click_mode physical three_queued) = None.
Proof.
  split; [reflexivity|].
  destruct (mode_switch_stops_session physical three_queued eq_refl)
    as (Hmode & _ & Hsession & _).
  split; [exact Hmode | exact Hsession].
Defined.

Section Late.
Variable decodeAudioData : string → AudioBuffer.

(** X21.  A buffer that arrives when the output clock has reached or
    passed the cursor (nothing is queued ahead) is scheduled at the clock's
    current time: it plays at once, after whatever gap there was. *)
Theorem late_buffer_plays_at_once (c : Clock) (m : Message) (b : AudioBuffer) (w : World) :
  audio_of decodeAudioData m = Some b →
  (nextStartTimeRef w <= currentTime c)%Q →
  schedule (since w (onmessage decodeAudioData c m w))
  = [(Qmax (nextStartTimeRef w) (currentTime c), duration b)]
  ∧ (Qmax (nextStartTimeRef w) (currentTime c) == currentTime c)%Q.
Proof.
  intros Haudio Hlate. split; [|by apply Q.max_r].
  rewrite (since_app _ _ _ (onmessage_trace decodeAudioData c m w)).
  rewrite Haudio, schedule_app. simpl.
  destruct (flagged m); [by rewrite schedule_stops | done].
Qed.
End Late.

(** The first buffer of the live session: the cursor is 0, the clock
    reads 5. *)
Lemma late_buffer_plays_at_once_witness :
  audio_of sample_decode (audio_message "ab") = Some (sample_decode "ab")
  ∧ (nextStartTimeRef live_session <= currentTime (at_time 5))%Q
  ∧ (Qmax (nextStartTimeRef live_session) (currentTime (at_time 5))
     == currentTime (at_time 5))%Q.
Proof.
  assert (Hlate : (nextStartTimeRef live_session <= currentTime (at_time 5))%Q)
    by (vm_compute; discriminate).
  split; [reflexivity|]. split; [exact Hlate|].
  exact (proj2 (late_buffer_plays_at_once sample_decode (at_time 5) (audio_message "ab")
                  (sample_decode "ab") live_session eq_refl Hlate)).
Defined.

(** ** The cursor across sessions, over every handler *)

Section Cursor.
Variable decodeAudioData : string → AudioBuffer.
Variable toDataURL : Canvas → string → Q → string.


End Cursor.


